(** * ChatInterface.jsx: a shallow embedding of the chat transcript component

    The development follows [frontend/src/components/ChatInterface.jsx]:
    the two memoised message components ([UserMessage], [AssistantMessage]
    and its comparator), the [ChatInterface] function component with its
    [useState] cell, its [pendingInput] effect and its submit handlers, and
    the slice of React that gives [memo] and [useEffect] their meaning
    (props comparison against the props of the last render, dependency
    comparison against the dependencies of the last commit).  The
    auto-scroll effect and the style sheet are left out. *)

From Stdlib Require Import ZArith NArith String Ascii.
From stdpp Require Import base option list gmap strings.

Set Default Proof Using "Type".
#[local] Set Warnings "-register-all".
Local Open Scope N_scope.

(** ** JavaScript strings

    A JavaScript string is a sequence of UTF-16 code units.  The component
    only compares strings, tests them for emptiness and trims them. *)

Abbreviation jsstring := (list N).

(** A source literal, all of whose characters are ASCII. *)
Definition lit (s : string) : jsstring :=
  N_of_ascii <$> list_ascii_of_string s.

(** [WhiteSpace] and [LineTerminator] of ECMA-262, the code units that
    [String.prototype.trim] strips. *)
Definition isWhiteSpace (c : N) : bool :=
  (c =? 0x09) || (c =? 0x0B) || (c =? 0x0C) || (c =? 0x20) || (c =? 0xA0)
  || (c =? 0x1680) || ((0x2000 <=? c) && (c <=? 0x200A))
  || (c =? 0x202F) || (c =? 0x205F) || (c =? 0x3000) || (c =? 0xFEFF).

Definition isLineTerminator (c : N) : bool :=
  (c =? 0x0A) || (c =? 0x0D) || (c =? 0x2028) || (c =? 0x2029).

Definition isTrimmed (c : N) : bool := isWhiteSpace c || isLineTerminator c.

Fixpoint trimStart (s : jsstring) : jsstring :=
  match s with
  | c :: s' => if isTrimmed c then trimStart s' else s
  | [] => []
  end.

Definition trimEnd (s : jsstring) : jsstring := reverse (trimStart (reverse s)).

(** [s.trim()] *)
Definition trim (s : jsstring) : jsstring := trimEnd (trimStart s).

(** [ToBoolean] on a string: only the empty string is falsy. *)
Definition truthy (s : jsstring) : bool :=
  match s with [] => false | _ :: _ => true end.

(** A string is blank when it is empty or made of trimmed code units only. *)
Definition blank (s : jsstring) : Prop := Forall (λ c, isTrimmed c = true) s.


(** ** The message model

    A conversation entry as the component reads it.  The component tests
    the stage payloads and the loading flags for truthiness only: the flags
    are booleans, an absent payload ([null] or [undefined]) is [None], and
    a present payload is truthy or falsy as its type has it (see
    [Payload]).  The component never looks inside the stage-1 and stage-3
    payloads, it forwards them to [Stage1] and [Stage3]: their types are
    parameters of the development. *)

Module Loading.
(** [msg.loading]: which phases are in flight. *)
Record t := { stage1 : bool; stage2 : bool; stage3 : bool }.
End Loading.

(** Modelled from the spec: the shape of the stage-2 payload, which only
    [Stage2.jsx] (not part of this source tree) looks into.  A ranking is
    one model's ordering of the anonymised response labels. *)
Record ranking := { ranker : jsstring; order : list jsstring }.

(** [msg.metadata] *)
Record metadata_t := {
  label_to_model : option (gmap jsstring jsstring);
  aggregate_rankings : option (list jsstring)
}.

Inductive handler := HandleSubmit | HandleKeyDown | HandleChange | OnStopGeneration.
Inductive ref_name := textareaRef | messagesEndRef.

(** Attribute values of host elements. *)
Inductive prop :=
| PString (s : string)
| PValue (s : jsstring)
| PBool (b : bool)
| PNum (n : Z)
| PHandler (h : handler)
| PRef (r : ref_name).

(** ** Guards on payloads

    [payload && <Stage ... />] gives the element for a truthy payload.  A
    falsy payload is itself the child, and React leaves such a child out
    (the empty string, [false], [null], [undefined]) or displays it as text
    ([0], [NaN]). *)
Inductive guarded :=
| Truthy
| LeftOut
| Displayed (text : jsstring).

(** What the component has to know of a payload type. *)
Class Payload (A : Type) := guard : A → guarded.

(** A text is falsy exactly when it is empty, and an empty text child
    displays nothing. *)
#[global] Instance text_payload : Payload jsstring :=
  λ s, if truthy s then Truthy else LeftOut.

(** Arrays and objects are truthy, empty or not. *)
#[global] Instance rankings_payload : Payload (list ranking) := λ _, Truthy.
#[global] Instance texts_payload : Payload (list jsstring) := λ _, Truthy.
#[global] Instance object_payload : Payload unit := λ _, Truthy.

Section ChatInterface.

Context {Responses Synthesis : Type}.
Context `{!Payload Responses, !Payload Synthesis}.

Record message := {
  role : jsstring;
  content : jsstring;
  stage1 : option Responses;
  stage2 : option (list ranking);
  stage3 : option Synthesis;
  loading : option Loading.t;
  metadata : option metadata_t
}.

Record conversation_t := { messages : list message }.

(** ** React elements *)

(** Props of the two memoised components. *)
Record assistantProps := { msg : message; isActive : bool }.

Inductive memo_element :=
| UserMessageEl (content : jsstring)
| AssistantMessageEl (props : assistantProps).

Inductive vnode :=
| Host (tag : string) (props : list (string * prop)) (children : list vnode)
| Text (s : jsstring)
| Nothing                                  (* [false], [null], [undefined] *)
| Children (items : list vnode)            (* an array child *)
| ReactMarkdown (children : jsstring)
| Stage1El (responses : Responses)
| Stage2El (rankings : list ranking)
           (labelToModel : option (gmap jsstring jsstring))
           (aggregateRankings : option (list jsstring))
| Stage3El (finalResponse : Synthesis)
| Memo (key : nat) (e : memo_element).

Definition el (tag className : string) (children : list vnode) : vnode :=
  Host tag [("className"%string, PString className)] children.

(** [flag && element] for a boolean flag. *)
Definition when (flag : bool) (element : vnode) : vnode :=
  if flag then element else Nothing.

(** [payload && render payload] for an optional payload: the element for a
    truthy payload, the payload itself for a falsy one. *)
Definition whenTruthy {A} `{!Payload A} (payload : option A)
    (render : A → vnode) : vnode :=
  match payload with
  | Some x =>
      match guard x with
      | Truthy => render x
      | LeftOut => Nothing
      | Displayed text => Text text
      end
  | None => Nothing
  end.

Definition isNothing (n : vnode) : bool :=
  match n with Nothing => true | _ => false end.

(** What React puts on screen for a list of children: holes are skipped. *)
Fixpoint displayed (children : list vnode) : list vnode :=
  match children with
  | [] => []
  | c :: cs => if isNothing c then displayed cs else c :: displayed cs
  end.

(** ** The message components *)

Definition UserMessage (content : jsstring) : vnode :=
  el "div" "message-group" [
    el "div" "user-message" [
      el "div" "message-label" [Text (lit "You")];
      el "div" "message-content" [
        el "div" "markdown-content" [ReactMarkdown content]]]].

Definition stageLoading (caption : string) : vnode :=
  el "div" "stage-loading" [
    el "div" "spinner" [];
    Host "span" [] [Text (lit caption)]].

(** [msg.loading?.stageN] *)
Definition loadingFlag (m : message) (flag : Loading.t → bool) : bool :=
  from_option flag false (loading m).

Definition assistantLabel : vnode :=
  el "div" "message-label" [Text (lit "LLM Council")].

Definition stage1Loading : vnode :=
  stageLoading "Running Stage 1: Collecting individual responses...".
Definition stage2Loading : vnode := stageLoading "Running Stage 2: Peer rankings...".
Definition stage3Loading : vnode := stageLoading "Running Stage 3: Final synthesis...".

Definition stage2Element (m : message) (rankings : list ranking) : vnode :=
  Stage2El rankings (metadata m ≫= label_to_model)
                    (metadata m ≫= aggregate_rankings).

(** The children of the [assistant-message] element, in source order. *)
Definition assistantChildren (m : message) : list vnode := [
  assistantLabel;
  when (loadingFlag m Loading.stage1) stage1Loading;
  whenTruthy (stage1 m) Stage1El;
  when (loadingFlag m Loading.stage2) stage2Loading;
  whenTruthy (stage2 m) (stage2Element m);
  when (loadingFlag m Loading.stage3) stage3Loading;
  whenTruthy (stage3 m) Stage3El ].

Definition AssistantMessage (p : assistantProps) : vnode :=
  el "div" "message-group" [
    el "div" "assistant-message" (assistantChildren (msg p))].

(** The comparator handed to [memo] with [AssistantMessage]. *)
Definition areEqual (prevProps nextProps : assistantProps) : bool :=
  if isActive prevProps || isActive nextProps then false else true.

(** [memo] without a comparator compares props shallowly; [UserMessage] has
    the single prop [content], a string, which [Object.is] compares by
    value. *)
Definition shallowEqual (prevContent nextContent : jsstring) : bool :=
  bool_decide (prevContent = nextContent).

(** The sub-fragment one stage contributes to the cell. *)
Definition stageFragment {A} `{!Payload A} (flag : bool) (indicator : vnode)
    (payload : option A) (render : A → vnode) : list vnode :=
  displayed [when flag indicator; whenTruthy payload render].

(** ** The [ChatInterface] tree *)

Definition attr (name : string) (value : prop) : string * prop := (name, value).
Definition className (c : string) : string * prop := attr "className" (PString c).

(** The callback of [conversation.messages.map]. *)
Definition messageCell (isLoading : bool) (length : nat)
    (index : nat) (m : message) : vnode :=
  if bool_decide (role m = lit "user") then
    Memo index (UserMessageEl (content m))
  else
    let isLastAssistant :=
      isLoading && (Z.of_nat index =? Z.of_nat length - 1)%Z in
    Memo index (AssistantMessageEl {| msg := m; isActive := isLastAssistant |}).

Definition welcomePlaceholder : vnode :=
  el "div" "empty-state" [
    Host "h2" [] [Text (lit "Welcome to LLM Council")];
    Host "p" [] [Text (lit "Create a new conversation to get started")]].

Definition startPlaceholder : vnode :=
  el "div" "empty-state" [
    Host "h2" [] [Text (lit "Start a conversation")];
    Host "p" [] [Text (lit "Ask a question to consult the LLM Council")]].

Definition loadingIndicator : vnode :=
  el "div" "loading-indicator" [
    el "div" "spinner" [];
    Host "span" [] [Text (lit "Consulting the council...")]].

Definition messagesEnd : vnode := Host "div" [attr "ref" (PRef messagesEndRef)] [].

(** The slot filled by the conditional on [conversation.messages.length]. *)
Definition transcript (isLoading : bool) (ms : list message) : vnode :=
  if (Z.of_nat (length ms) =? 0)%Z then startPlaceholder
  else Children (imap (messageCell isLoading (length ms)) ms).

Definition messagesContainer (isLoading : bool) (ms : list message) : vnode :=
  el "div" "messages-container" [
    transcript isLoading ms;
    when isLoading loadingIndicator;
    messagesEnd ].

Definition textarea (isLoading : bool) (input : jsstring) : vnode :=
  Host "textarea" [
    attr "ref" (PRef textareaRef);
    className "message-input";
    attr "placeholder"
      (PString "Ask your question... (Shift+Enter for new line, Enter to send)");
    attr "value" (PValue input);
    attr "onChange" (PHandler HandleChange);
    attr "onKeyDown" (PHandler HandleKeyDown);
    attr "disabled" (PBool isLoading);
    attr "rows" (PNum 3) ] [].

Definition stopButton : vnode :=
  Host "button" [
    attr "type" (PString "button");
    className "stop-button";
    attr "onClick" (PHandler OnStopGeneration) ] [Text (lit "Stop")].

Definition sendButton (input : jsstring) : vnode :=
  Host "button" [
    attr "type" (PString "submit");
    className "send-button";
    attr "disabled" (PBool (negb (truthy (trim input)))) ] [Text (lit "Send")].

Definition inputForm (isLoading : bool) (input : jsstring) : vnode :=
  Host "form" [className "input-form"; attr "onSubmit" (PHandler HandleSubmit)] [
    textarea isLoading input;
    if isLoading then stopButton else sendButton input ].

(** The element [ChatInterface] returns, given its props and the current
    value of the [input] state cell. *)
Definition ChatInterface (conversation : option conversation_t)
    (isLoading : bool) (input : jsstring) : vnode :=
  match conversation with
  | None => el "div" "chat-interface" [welcomePlaceholder]
  | Some conv =>
      el "div" "chat-interface" [
        messagesContainer isLoading (messages conv);
        inputForm isLoading input ]
  end.

(** *** Reading a tree *)

(** All nodes of a tree in document order; holes are not nodes. *)
Fixpoint nodes (n : vnode) : list vnode :=
  match n with
  | Nothing => []
  | Host _ _ cs => n :: flat_map nodes cs
  | Children cs => flat_map nodes cs
  | _ => [n]
  end.

(** The memoised message cells of a tree, in document order. *)
Definition cellOf (n : vnode) : option (nat * memo_element) :=
  match n with Memo key e => Some (key, e) | _ => None end.

Definition memoCells (tree : vnode) : list (nat * memo_element) :=
  omap cellOf (nodes tree).

Definition getProp (name : string) (n : vnode) : option prop :=
  match n with
  | Host _ props _ => snd <$> List.find (λ p, String.eqb (fst p) name) props
  | _ => None
  end.

Definition ref_eqb (r r' : ref_name) : bool :=
  match r, r' with
  | textareaRef, textareaRef | messagesEndRef, messagesEndRef => true
  | _, _ => false
  end.

Definition holdsRef (r : ref_name) (n : vnode) : bool :=
  match getProp "ref" n with
  | Some (PRef r') => ref_eqb r r'
  | _ => false
  end.

(** Whether a host element of the tree carries [ref={r}], that is whether
    [r.current] is an element once the tree is committed. *)
Definition attached (r : ref_name) (tree : vnode) : bool :=
  existsb (holdsRef r) (nodes tree).

(** ** The component instance and its surroundings

    Everything a render pass, an effect or an event handler can read or
    change: the [useState] cell, the dependencies remembered by [useEffect],
    the memo cells of the mounted message elements, the timer queue, and a
    log of the calls made to the props callbacks and to the DOM. *)

Inductive call :=
| preventDefault
| onSendMessage (text : jsstring)
| onPendingInputConsumed
| focus.

(** [() => textareaRef.current?.focus()] *)
Inductive callback := focusTextarea.

(** An element object: what a component function returned, and which
    object it is. *)
Record rendered := { ref : nat; node : vnode }.

(** A mounted memo cell: the element type and props of its last render
    ([memoizedProps]) and the output of that render. *)
Record fiber := { memoized : memo_element; output : rendered }.

Record world := {
  input : jsstring;
  pendingDeps : option (option jsstring);
  cells : gmap nat fiber;
  textareaAttached : bool;
  timers : list (callback * Z);
  calls : list call;
  nextRef : nat;
  invocations : list (nat * memo_element)
}.

Definition mountWorld : world := {|
  input := lit "";
  pendingDeps := None;
  cells := ∅;
  textareaAttached := false;
  timers := [];
  calls := [];
  nextRef := 0%nat;
  invocations := []
|}.

Definition M (A : Type) : Type := world → A * world.

#[local] Instance M_ret : MRet M := λ A x w, (x, w).
#[local] Instance M_bind : MBind M := λ A B f m w, f (m w).1 (m w).2.

Definition get : M world := λ w, (w, w).
Definition exec {A} (m : M A) (w : world) : world := (m w).2.

(** [setInput(value)] *)
Definition setInput (value : jsstring) : M unit := λ w,
  (tt, {| input := value; pendingDeps := pendingDeps w; cells := cells w;
          textareaAttached := textareaAttached w; timers := timers w;
          calls := calls w; nextRef := nextRef w;
          invocations := invocations w |}).

Definition perform (c : call) : M unit := λ w,
  (tt, {| input := input w; pendingDeps := pendingDeps w; cells := cells w;
          textareaAttached := textareaAttached w; timers := timers w;
          calls := calls w ++ [c]; nextRef := nextRef w;
          invocations := invocations w |}).

(** [setTimeout(cb, delay)] *)
Definition setTimeout (cb : callback) (delay : Z) : M unit := λ w,
  (tt, {| input := input w; pendingDeps := pendingDeps w; cells := cells w;
          textareaAttached := textareaAttached w;
          timers := timers w ++ [(cb, delay)];
          calls := calls w; nextRef := nextRef w;
          invocations := invocations w |}).

Definition clearTimers : M unit := λ w,
  (tt, {| input := input w; pendingDeps := pendingDeps w; cells := cells w;
          textareaAttached := textareaAttached w; timers := [];
          calls := calls w; nextRef := nextRef w;
          invocations := invocations w |}).

Definition commitTree (fs : gmap nat fiber) (textarea : bool) : M unit := λ w,
  (tt, {| input := input w; pendingDeps := pendingDeps w; cells := fs;
          textareaAttached := textarea; timers := timers w;
          calls := calls w; nextRef := nextRef w;
          invocations := invocations w |}).

Definition rememberDeps (deps : option jsstring) : M unit := λ w,
  (tt, {| input := input w; pendingDeps := Some deps; cells := cells w;
          textareaAttached := textareaAttached w; timers := timers w;
          calls := calls w; nextRef := nextRef w;
          invocations := invocations w |}).

(** *** [memo] *)

Definition body (e : memo_element) : vnode :=
  match e with
  | UserMessageEl content => UserMessage content
  | AssistantMessageEl props => AssistantMessage props
  end.

(** Calling the component function: a new element object is made. *)
Definition invoke (key : nat) (e : memo_element) : M rendered := λ w,
  ({| ref := nextRef w; node := body e |},
   {| input := input w; pendingDeps := pendingDeps w; cells := cells w;
      textareaAttached := textareaAttached w; timers := timers w;
      calls := calls w; nextRef := S (nextRef w);
      invocations := invocations w ++ [(key, e)] |}).

(** Whether the cell may keep its output: same component, and the
    component's comparator accepts the previous and the next props. *)
Definition bailsOut (prev next : memo_element) : bool :=
  match prev, next with
  | UserMessageEl prevContent, UserMessageEl nextContent =>
      shallowEqual prevContent nextContent
  | AssistantMessageEl prevProps, AssistantMessageEl nextProps =>
      areEqual prevProps nextProps
  | _, _ => false
  end.

Definition updateMemo (current : option fiber) (key : nat)
    (next : memo_element) : M fiber :=
  match current with
  | Some f =>
      if bailsOut (memoized f) next then mret f
      else out ← invoke key next; mret {| memoized := next; output := out |}
  | None =>
      out ← invoke key next; mret {| memoized := next; output := out |}
  end.

(** Keyed children are matched with the cells of the previous commit by
    key; cells whose key is gone are dropped. *)
Fixpoint reconcileChildren (current : gmap nat fiber)
    (elements : list (nat * memo_element)) : M (gmap nat fiber) :=
  match elements with
  | [] => mret ∅
  | (key, e) :: rest =>
      f ← updateMemo (current !! key) key e;
      fs ← reconcileChildren current rest;
      mret (<[key := f]> fs)
  end.

(** *** Effects and handlers *)

(** The effect with dependency list [[pendingInput]]. *)
Definition pendingInputEffect (pendingInput : option jsstring) : M unit :=
  match pendingInput with
  | Some text =>
      _ ← setInput text;
      _ ← perform onPendingInputConsumed;
      setTimeout focusTextarea 0
  | None => mret tt
  end.

(** [useEffect] runs its effect after the first commit and after each
    commit whose dependency differs ([Object.is]) from the last one. *)
Definition depsChanged (prev : option (option jsstring))
    (next : option jsstring) : bool :=
  match prev with
  | None => true
  | Some d => negb (bool_decide (d = next))
  end.

Definition handleSubmit (input : jsstring) (isLoading : bool) : M unit :=
  _ ← perform preventDefault;
  if truthy (trim input) && negb isLoading then
    _ ← perform (onSendMessage input);
    setInput (lit "")
  else mret tt.

Definition handleKeyDown (key : jsstring) (shiftKey : bool)
    (input : jsstring) (isLoading : bool) : M unit :=
  if bool_decide (key = lit "Enter") && negb shiftKey then
    _ ← perform preventDefault;
    handleSubmit input isLoading
  else mret tt.

(** The props of [ChatInterface] that are data; the callbacks among its
    props appear as [call]s. *)
Record chatProps := {
  conversation : option conversation_t;
  isLoading : bool;
  pendingInput : option jsstring
}.

(** One render of [ChatInterface] with the given props, its commit, and its
    [pendingInput] effect. *)
Definition render (p : chatProps) : M unit :=
  w ← get;
  let tree := ChatInterface (conversation p) (isLoading p) (input w) in
  fs ← reconcileChildren (cells w) (memoCells tree);
  _ ← commitTree fs (attached textareaRef tree);
  _ ← (if depsChanged (pendingDeps w) (pendingInput p)
       then pendingInputEffect (pendingInput p) else mret tt);
  rememberDeps (pendingInput p).

(** A submit event reaching the form: the handler closes over the [input]
    and [isLoading] of the last render. *)
Definition submit (p : chatProps) : M unit :=
  w ← get; handleSubmit (input w) (isLoading p).

Definition runCallback (cb : callback) : M unit :=
  match cb with
  | focusTextarea =>
      w ← get; if textareaAttached w then perform focus else mret tt
  end.

(** The timer queue is drained by the event loop once the current task,
    the render pass included, is over. *)
Definition runTimers : M unit :=
  w ← get;
  _ ← clearTimers;
  foldr (λ t k, _ ← runCallback t.1; k) (mret tt) (timers w).

(** A run of render passes. *)
Fixpoint renders (ps : list chatProps) : M unit :=
  match ps with
  | [] => mret tt
  | p :: ps' => _ ← render p; renders ps'
  end.

(** Everything that moves the instance from one world to the next: a
    render pass, a submit of the form, a key pressed in the textarea, an
    edit of the textarea ([onChange]), and the event loop draining the
    timers.  The handlers run with the props of the last pass. *)
Inductive event :=
| Pass (p : chatProps)
| Submit (p : chatProps)
| KeyDown (key : jsstring) (shiftKey : bool) (p : chatProps)
| Change (value : jsstring)
| Tick.

Definition step (ev : event) : M unit :=
  match ev with
  | Pass p => render p
  | Submit p => submit p
  | KeyDown key shiftKey p =>
      w ← get; handleKeyDown key shiftKey (input w) (isLoading p)
  | Change value => setInput value
  | Tick => runTimers
  end.

Fixpoint run (evs : list event) : M unit :=
  match evs with
  | [] => mret tt
  | ev :: evs' => _ ← step ev; run evs'
  end.

(** ** The stage-2 renderer *)

(** Modelled from the spec: [Stage2.jsx] is not part of this source tree.
    Rankings are rendered with the model identities the label-to-model
    mapping resolves their labels to; a label the mapping does not resolve
    (the mapping lacks it, or no mapping was passed) is displayed as it is. *)
Definition resolveLabel (labelToModel : option (gmap jsstring jsstring))
    (label : jsstring) : jsstring :=
  default label (labelToModel ≫= (.!! label)).

(** Modelled from the spec: one model's ranking, as a list of resolved
    model identities. *)
Definition rankingBlock (labelToModel : option (gmap jsstring jsstring))
    (r : ranking) : vnode :=
  el "div" "ranking" [
    el "div" "ranking-model" [Text (ranker r)];
    Host "ol" [] ((λ label, Host "li" [] [Text (resolveLabel labelToModel label)])
                    <$> order r)].

(** Modelled from the spec: the aggregate order is rendered apart from the
    per-model rankings. *)
Definition aggregateBlock (aggregate : list jsstring) : vnode :=
  el "div" "aggregate-rankings" [
    Host "ol" [] ((λ name, Host "li" [] [Text name]) <$> aggregate)].

(** Modelled from the spec: the fragment of the stage-2 renderer. *)
Definition Stage2 (rankings : list ranking)
    (labelToModel : option (gmap jsstring jsstring))
    (aggregateRankings : option (list jsstring)) : vnode :=
  el "div" "stage2"
    ((rankingBlock labelToModel <$> rankings)
     ++ [whenTruthy aggregateRankings aggregateBlock]).

(** The texts a fragment displays, in document order. *)
Definition textOf (n : vnode) : option jsstring :=
  match n with Text s => Some s | _ => None end.

Definition texts (tree : vnode) : list jsstring := omap textOf (nodes tree).

(** What [AssistantMessage] hands to the stage-2 renderer for a message. *)
Definition stage2Fragment (m : message) : option vnode :=
  (λ rankings, Stage2 rankings (metadata m ≫= label_to_model)
                               (metadata m ≫= aggregate_rankings))
  <$> stage2 m.

(** ** Vocabulary of the statements *)

Inductive stage := First | Second | Third.

Definition stageFlag (s : stage) (m : message) : bool :=
  match s with
  | First => loadingFlag m Loading.stage1
  | Second => loadingFlag m Loading.stage2
  | Third => loadingFlag m Loading.stage3
  end.

Definition stageIndicator (s : stage) : vnode :=
  match s with
  | First => stage1Loading
  | Second => stage2Loading
  | Third => stage3Loading
  end.

(** A payload that is there and truthy. *)
Definition truthyData {A} `{!Payload A} (payload : option A) : option A :=
  match payload with
  | Some x => match guard x with Truthy => Some x | _ => None end
  | None => None
  end.

(** The text React displays for a payload that is there but falsy, for the
    falsy values it displays. *)
Definition falsyText {A} `{!Payload A} (payload : option A) : option jsstring :=
  match payload with
  | Some x => match guard x with Displayed text => Some text | _ => None end
  | None => None
  end.

(** The element rendering a stage's data, when the data is there and
    truthy. *)
Definition stageData (s : stage) (m : message) : option vnode :=
  match s with
  | First => Stage1El <$> truthyData (stage1 m)
  | Second => stage2Element m <$> truthyData (stage2 m)
  | Third => Stage3El <$> truthyData (stage3 m)
  end.

(** The text node a stage's falsy payload leaves behind, if any. *)
Definition stageResidue (s : stage) (m : message) : option vnode :=
  match s with
  | First => Text <$> falsyText (stage1 m)
  | Second => Text <$> falsyText (stage2 m)
  | Third => Text <$> falsyText (stage3 m)
  end.

(** The part of the displayed cell that belongs to one stage. *)
Definition stageOutput (s : stage) (m : message) : list vnode :=
  match s with
  | First =>
      stageFragment (loadingFlag m Loading.stage1) stage1Loading
                    (stage1 m) Stage1El
  | Second =>
      stageFragment (loadingFlag m Loading.stage2) stage2Loading
                    (stage2 m) (stage2Element m)
  | Third =>
      stageFragment (loadingFlag m Loading.stage3) stage3Loading
                    (stage3 m) Stage3El
  end.

Definition isUser (m : message) : bool := bool_decide (role m = lit "user").

(** Whether index [i] is the last one of a sequence of [length] messages. *)
Definition isLast (i length : nat) : bool := bool_decide (S i = length).

(** The element of the cell that [messageCell] makes for a message. *)
Definition messageElement (isLoading : bool) (length : nat)
    (index : nat) (m : message) : memo_element :=
  if isUser m then UserMessageEl (content m)
  else AssistantMessageEl
         {| msg := m; isActive := isLoading && isLast index length |}.

(** The [isActive] a cell was given; a [UserMessage] is given none. *)
Definition activeFlag (e : memo_element) : bool :=
  match e with
  | UserMessageEl _ => false
  | AssistantMessageEl props => isActive props
  end.

(** The message a cell displays, through the props it was given. *)
Definition shows (e : memo_element) (m : message) : Prop :=
  match e with
  | UserMessageEl c => isUser m = true ∧ c = content m
  | AssistantMessageEl props => isUser m = false ∧ msg props = m
  end.

(** How often the component function of the cell with key [key] was called. *)
Definition invocationsOf (key : nat) (w : world) : nat :=
  length (filter (λ i, i.1 = key) (invocations w)).

(** In pass [p], the message at index [i] is a user message with text [c]. *)
Definition userAt (i : nat) (c : jsstring) (p : chatProps) : Prop :=
  ∃ conv m, conversation p = Some conv ∧ messages conv !! i = Some m
            ∧ isUser m = true ∧ content m = c.

(** Whether a cell keeps the output of its last render when it is
    evaluated with the element [next]. *)
Definition keeps (current : option fiber) (next : memo_element) : bool :=
  match current with
  | Some f => bailsOut (memoized f) next
  | None => false
  end.

(** The cell a render of element [e] leaves behind, its output being the
    element object [r]. *)
Definition freshCell (e : memo_element) (r : nat) : fiber :=
  {| memoized := e; output := {| ref := r; node := body e |} |}.

(** The mounted cells hold what their component returned for the props
    they remember, in element objects allocated earlier. *)
Definition coherent (w : world) : Prop :=
  ∀ key f, cells w !! key = Some f →
    (ref (output f) < nextRef w)%nat ∧ node (output f) = body (memoized f).

(** In pass [p], the message at index [i] is the assistant message [m]. *)
Definition assistantAt (i : nat) (m : message) (p : chatProps) : Prop :=
  ∃ conv, conversation p = Some conv ∧ messages conv !! i = Some m
          ∧ isUser m = false.

(** The [isActive] that pass [p] computes for index [i]. *)
Definition activeAt (i : nat) (p : chatProps) : bool :=
  isLoading p
  && isLast i (length (from_option messages [] (conversation p))).

(** ** Sample entries

    The entries of the scenarios the statements are tried on. *)

Definition userEntry (text : jsstring) : message := {|
  role := lit "user"; content := text;
  stage1 := None; stage2 := None; stage3 := None;
  loading := None; metadata := None
|}.

Definition assistantEntry (flags : option Loading.t)
    (rankings : option (list ranking)) (meta : option metadata_t) : message := {|
  role := lit "assistant"; content := [];
  stage1 := None; stage2 := rankings; stage3 := None;
  loading := flags; metadata := meta
|}.

(** A turn whose first phase is in flight. *)
Definition startedEntry : message :=
  assistantEntry
    (Some {| Loading.stage1 := true; Loading.stage2 := false;
             Loading.stage3 := false |})
    None None.

Definition passOf (ms : list message) (loading : bool)
    (pending : option jsstring) : chatProps :=
  {| conversation := Some {| messages := ms |};
     isLoading := loading; pendingInput := pending |}.

(** The world in which the user has typed [text] since the mount. *)
Definition typed (text : jsstring) : world := exec (setInput text) mountWorld.

(** ** Vocabulary of the further statements *)

(** The texts handed to [onSendMessage], oldest first. *)
Definition sentText (c : call) : option jsstring :=
  match c with onSendMessage text => Some text | _ => None end.

Definition sent (w : world) : list jsstring := omap sentText (calls w).

(** How often [onPendingInputConsumed] and [focus] were called. *)
Definition restored (w : world) : nat :=
  length (omap (λ c, match c with onPendingInputConsumed => Some c | _ => None end)
               (calls w)).

Definition focused (w : world) : nat :=
  length (omap (λ c, match c with focus => Some c | _ => None end) (calls w)).

(** The passes of a run in which the [pendingInput] effect finds a text it
    did not see at the commit before, [prev] being the dependency
    remembered when the run starts. *)
Fixpoint restorations (prev : option (option jsstring))
    (ps : list chatProps) : nat :=
  match ps with
  | [] => 0
  | p :: ps' =>
      ((if depsChanged prev (pendingInput p)
           && bool_decide (is_Some (pendingInput p)) then 1 else 0)
       + restorations (Some (pendingInput p)) ps')%nat
  end.

(** The messages of a pass; none without a conversation. *)
Definition messagesOf (p : chatProps) : list message :=
  from_option messages [] (conversation p).

(** The element a pass makes for the message at index [j]. *)
Definition elementAt (j : nat) (p : chatProps) : option memo_element :=
  messageElement (isLoading p) (length (messagesOf p)) j <$> messagesOf p !! j.

(** Two versions of an entry that a user cell cannot tell apart and that
    have the same role. *)
Definition sameEntry (m1 m2 : message) : Prop :=
  isUser m1 = isUser m2 ∧ (isUser m1 = true → content m1 = content m2).

(** In pass [p], index [j] holds an assistant message that is not active. *)
Definition settledAt (j : nat) (p : chatProps) : Prop :=
  (∃ m, assistantAt j m p) ∧ activeAt j p = false.

(** The cells are those a pass with props [p] leaves behind: a cell for
    each message, agreeing with the element of the pass on all that the
    comparators read, and no other cell. *)
Definition settledFor (p : chatProps) (w : world) : Prop :=
  ∀ j, match elementAt j p with
       | Some e => ∃ f, cells w !! j = Some f
                        ∧ ∀ e', bailsOut (memoized f) e' = bailsOut e e'
       | None => cells w !! j = None
       end.

(** What [payload && element] leaves among the displayed children of a
    stage: the element for a truthy payload, the text of a falsy payload
    that React displays, nothing otherwise. *)
Definition stageChild (s : stage) (m : message) : list vnode :=
  option_list (stageData s m) ++ option_list (stageResidue s m).

(** The handlers a tree wires, in document order: for each, the tag and
    the class of the host element, the attribute, and the handler. *)
Definition classOf (n : vnode) : string :=
  match getProp "className" n with Some (PString c) => c | _ => "" end.

Definition wiresOfNode (n : vnode) : list (string * string * string * handler) :=
  match n with
  | Host tag props _ =>
      omap (λ p, match p.2 with
                 | PHandler h => Some (tag, classOf n, p.1, h)
                 | _ => None
                 end) props
  | _ => []
  end.

Definition handlersOf (tree : vnode) : list (string * string * string * handler) :=
  flat_map wiresOfNode (nodes tree).

(** *** The auto-scroll effect

    The effect with dependency list [[conversation, isLoading]].
    [Object.is] compares the conversation by reference: the dependency is
    the identity of the conversation object, [None] for [null]. *)
Record scrollDeps := { conversationRef : option nat; loadingDep : bool }.

Definition scrollDepsChanged (prev : option scrollDeps) (next : scrollDeps) : bool :=
  match prev with
  | None => true
  | Some d =>
      negb (bool_decide (conversationRef d = conversationRef next))
      || negb (Bool.eqb (loadingDep d) (loadingDep next))
  end.

(** What the effect keeps between passes, and how often
    [scrollIntoView] was called. *)
Record scroller := { lastDeps : option scrollDeps; scrolls : nat }.

(** [messagesEndRef.current?.scrollIntoView({ behavior: 'smooth' })] after
    the commit of the tree of pass [p], whose conversation object is [id]. *)
Definition scrollPass (id : option nat) (p : chatProps) (inp : jsstring)
    (s : scroller) : scroller :=
  let tree := ChatInterface (conversation p) (isLoading p) inp in
  let deps := {| conversationRef := id; loadingDep := isLoading p |} in
  {| lastDeps := Some deps;
     scrolls :=
       if scrollDepsChanged (lastDeps s) deps then
         if attached messagesEndRef tree then S (scrolls s) else scrolls s
       else scrolls s |}.

(** * Properties *)

(** ** Trimming *)

Lemma trimStart_nil_iff s : trimStart s = [] ↔ blank s.
Proof.
  unfold blank. induction s as [|c s IH]; simpl.
  - split; [constructor | done].
  - destruct (isTrimmed c) eqn:Hc.
    + rewrite IH. split; [by constructor | by inversion 1].
    + split; [done | inversion 1; congruence].
Qed.

Lemma trimStart_head s c t : trimStart s = c :: t → isTrimmed c = false.
Proof.
  induction s as [|d s IH]; simpl; [done|].
  destruct (isTrimmed d) eqn:Hd; [done | congruence].
Qed.

Lemma trim_nil_iff s : trim s = [] ↔ blank s.
Proof.
  unfold trim, trimEnd. split.
  - intros H. apply (f_equal reverse) in H. rewrite reverse_involutive in H.
    simpl in H. change (reverse []) with (@nil N) in H.
    apply trimStart_nil_iff in H. unfold blank in H.
    rewrite Forall_reverse in H. destruct (trimStart s) as [|c t] eqn:E.
    + by apply trimStart_nil_iff.
    + apply trimStart_head in E. inversion H; congruence.
  - intros H. apply trimStart_nil_iff in H. by rewrite H.
Qed.

Lemma truthy_trim s : truthy (trim s) = false ↔ blank s.
Proof.
  rewrite <- trim_nil_iff. destruct (trim s); simpl; split; congruence.
Qed.

Lemma truthy_trim_true s : truthy (trim s) = true ↔ ¬ blank s.
Proof.
  rewrite <- truthy_trim. destruct (truthy (trim s)); split; congruence.
Qed.

(** ** The submit handlers *)

Lemma handleSubmit_rejects inp loading w :
  truthy (trim inp) && negb loading = false →
  handleSubmit inp loading w = perform preventDefault w.
Proof. intros H. unfold handleSubmit, mbind, M_bind. by rewrite H. Qed.

Lemma handleSubmit_sends inp loading w :
  truthy (trim inp) && negb loading = true →
  exec (handleSubmit inp loading) w =
  exec (setInput (lit ""))
    (exec (perform (onSendMessage inp)) (exec (perform preventDefault) w)).
Proof. intros H. unfold handleSubmit, exec, mbind, M_bind. by rewrite H. Qed.

Lemma submit_unfold p w : submit p w = handleSubmit (input w) (isLoading p) w.
Proof. reflexivity. Qed.

Lemma handleKeyDown_unfold key shiftKey inp loading w :
  handleKeyDown key shiftKey inp loading w =
  if bool_decide (key = lit "Enter") && negb shiftKey
  then handleSubmit inp loading (exec (perform preventDefault) w)
  else (tt, w).
Proof.
  unfold handleKeyDown.
  by destruct (bool_decide (key = lit "Enter") && negb shiftKey).
Qed.

(** The message cells of the tree are the images of the messages. *)
Lemma nodes_messageCell loading len i m :
  nodes (messageCell loading len i m) = [messageCell loading len i m].
Proof. unfold messageCell. by destruct (bool_decide _). Qed.

Lemma nodes_leaves (f : nat → message → vnode) (ms : list message) :
  (∀ i m, nodes (f i m) = [f i m]) →
  flat_map nodes (imap f ms) = imap f ms.
Proof.
  revert f. induction ms as [|m ms IH]; intros f Hf; [done|].
  cbn [imap flat_map]. rewrite Hf. cbn [app]. f_equal.
  apply IH. intros i x. apply Hf.
Qed.

Lemma nodes_transcript loading (ms : list message) :
  nodes (transcript loading ms) =
  match ms with
  | [] => nodes startPlaceholder
  | _ => imap (messageCell loading (length ms)) ms
  end.
Proof.
  unfold transcript. destruct ms as [|m ms]; [done|].
  change (Z.of_nat (length (m :: ms)) =? 0)%Z with false. cbv iota.
  cbn [nodes]. apply nodes_leaves. intros. apply nodes_messageCell.
Qed.

Lemma messageCell_is_memo loading len i m :
  ∃ e, messageCell loading len i m = Memo i e.
Proof. unfold messageCell. destruct (bool_decide _); eauto. Qed.

Lemma transcript_nodes_inv loading ms n :
  n ∈ nodes (transcript loading ms) →
  n ∈ nodes startPlaceholder ∨ ∃ key e, n = Memo key e.
Proof.
  rewrite nodes_transcript. destruct ms as [|m ms]; [by left|].
  intros [i [x [-> _]]]%elem_of_lookup_imap. right.
  destruct (messageCell_is_memo loading (length (m :: ms)) i x) as [e ->]. eauto.
Qed.

Lemma nodes_ChatInterface_Some conv loading inp :
  nodes (ChatInterface (Some conv) loading inp) =
  [ChatInterface (Some conv) loading inp;
   messagesContainer loading (messages conv)]
  ++ nodes (transcript loading (messages conv))
  ++ nodes (when loading loadingIndicator)
  ++ [messagesEnd; inputForm loading inp; textarea loading inp]
  ++ nodes (if loading then stopButton else sendButton inp).
Proof.
  unfold ChatInterface, messagesContainer, inputForm, el.
  cbn [nodes flat_map]. rewrite !app_nil_r.
  change (nodes messagesEnd) with [messagesEnd].
  change (nodes (textarea loading inp)) with [textarea loading inp].
  cbn [app]. by rewrite <- !app_assoc.
Qed.

Lemma nodes_ChatInterface_None loading inp :
  nodes (ChatInterface None loading inp) =
  ChatInterface None loading inp :: nodes welcomePlaceholder.
Proof. unfold ChatInterface, el. cbn [nodes flat_map]. by rewrite app_nil_r. Qed.

Lemma nodes_loadingIndicator :
  nodes loadingIndicator =
  [loadingIndicator; el "div" "spinner" [];
   Host "span" [] [Text (lit "Consulting the council...")];
   Text (lit "Consulting the council...")].
Proof. reflexivity. Qed.

Lemma nodes_startPlaceholder :
  nodes startPlaceholder =
  [startPlaceholder;
   Host "h2" [] [Text (lit "Start a conversation")];
   Text (lit "Start a conversation");
   Host "p" [] [Text (lit "Ask a question to consult the LLM Council")];
   Text (lit "Ask a question to consult the LLM Council")].
Proof. reflexivity. Qed.

Lemma nodes_welcomePlaceholder :
  nodes welcomePlaceholder =
  [welcomePlaceholder;
   Host "h2" [] [Text (lit "Welcome to LLM Council")];
   Text (lit "Welcome to LLM Council");
   Host "p" [] [Text (lit "Create a new conversation to get started")];
   Text (lit "Create a new conversation to get started")].
Proof. reflexivity. Qed.

Lemma nodes_stopButton : nodes stopButton = [stopButton; Text (lit "Stop")].
Proof. reflexivity. Qed.

Lemma nodes_sendButton inp :
  nodes (sendButton inp) = [sendButton inp; Text (lit "Send")].
Proof. reflexivity. Qed.

(** Splits a membership hypothesis over an explicit node list into its
    cases and closes those that equate different constructors. *)
Ltac node_cases H :=
  repeat first
    [ rewrite nodes_loadingIndicator in H
    | rewrite nodes_startPlaceholder in H
    | rewrite nodes_welcomePlaceholder in H
    | rewrite nodes_stopButton in H
    | rewrite nodes_sendButton in H
    | rewrite elem_of_app in H
    | rewrite elem_of_cons in H
    | apply elem_of_nil in H
    | apply transcript_nodes_inv in H
    | destruct H as [H | H]
    | destruct H as (? & ? & H)
    | contradiction
    | discriminate H ].

(** C6: while [isLoading] is set, a submit attempt, through the form or
    through the Enter key, performs nothing but [preventDefault]:
    [onSendMessage] is not called and the [input] state keeps its value.
    The tree of such a pass disables the textarea and offers the stop
    button in place of the send button. *)
Theorem submit_while_loading_is_ignored (p : chatProps) (w : world)
    (key : jsstring) (shiftKey : bool) :
  isLoading p = true →
  let w1 := exec (submit p) w in
  let w2 := exec (handleKeyDown key shiftKey (input w) (isLoading p)) w in
  (input w1 = input w ∧ calls w1 = calls w ++ [preventDefault])
  ∧ (input w2 = input w
     ∧ ∀ text, onSendMessage text ∈ calls w2 → onSendMessage text ∈ calls w)
  ∧ (∀ conv,
       let tree := ChatInterface (Some conv) (isLoading p) (input w) in
       getProp "disabled" (textarea (isLoading p) (input w)) = Some (PBool true)
       ∧ textarea (isLoading p) (input w) ∈ nodes tree
       ∧ stopButton ∈ nodes tree
       ∧ sendButton (input w) ∉ nodes tree).
Proof.
  intros Hl. cbn zeta. rewrite Hl. repeat split.
  - unfold exec. rewrite submit_unfold, Hl.
    by rewrite handleSubmit_rejects by apply andb_false_r.
  - unfold exec. rewrite submit_unfold, Hl.
    by rewrite handleSubmit_rejects by apply andb_false_r.
  - unfold exec. rewrite handleKeyDown_unfold.
    destruct (bool_decide (key = lit "Enter") && negb shiftKey); [|done].
    by rewrite handleSubmit_rejects by apply andb_false_r.
  - unfold exec. rewrite handleKeyDown_unfold.
    destruct (bool_decide (key = lit "Enter") && negb shiftKey); [|done].
    rewrite handleSubmit_rejects by apply andb_false_r. cbn. intros text.
    rewrite !elem_of_app, !list_elem_of_singleton. intuition discriminate.
  - rewrite nodes_ChatInterface_Some. set_solver.
  - rewrite nodes_ChatInterface_Some, nodes_stopButton. set_solver.
  - rewrite nodes_ChatInterface_Some. cbn [when]. intros H. node_cases H.
Qed.

(** C10: a submit attempt with blank input (empty, or made only of the
    code units [trim] strips) calls [preventDefault] and nothing else, so
    [onSendMessage] is not called and [input] keeps its value, and the send
    button of such a pass is disabled; a submit attempt with input that is
    not blank, while [isLoading] is clear, calls [onSendMessage] with the
    untrimmed [input] and sets [input] to the empty string. *)
Theorem submit_sends_exactly_nonblank_input (p : chatProps) (w : world) :
  let w' := exec (submit p) w in
  (blank (input w) →
     input w' = input w
     ∧ calls w' = calls w ++ [preventDefault]
     ∧ getProp "disabled" (sendButton (input w)) = Some (PBool true))
  ∧ (¬ blank (input w) → isLoading p = false →
     calls w' = calls w ++ [preventDefault; onSendMessage (input w)]
     ∧ input w' = []
     ∧ getProp "disabled" (sendButton (input w)) = Some (PBool false))
  ∧ (isLoading p = false → ∀ conv,
     sendButton (input w)
       ∈ nodes (ChatInterface (Some conv) (isLoading p) (input w))).
Proof.
  cbn zeta. split; [|split].
  - intros Hb%truthy_trim. unfold exec.
    rewrite submit_unfold, handleSubmit_rejects by by rewrite Hb.
    cbn. by rewrite Hb.
  - intros Hb%truthy_trim_true Hl. unfold exec.
    rewrite submit_unfold. fold (exec (handleSubmit (input w) (isLoading p)) w).
    rewrite handleSubmit_sends by by rewrite Hb, Hl.
    cbn. rewrite Hb, <- app_assoc. done.
  - intros -> conv. rewrite nodes_ChatInterface_Some, nodes_sendButton. set_solver.
Qed.

(** ** The tree *)

Lemma messageCell_element loading len i m :
  messageCell loading len i m = Memo i (messageElement loading len i m).
Proof.
  unfold messageCell, messageElement, isUser, isLast.
  destruct (bool_decide (role m = lit "user")); [done|].
  do 3 f_equal. destruct loading; [|done]. cbn.
  apply eq_true_iff_eq. rewrite Z.eqb_eq, bool_decide_eq_true. lia.
Qed.

Lemma omap_imap_Some {A B C} (c : B → option C) (f : nat → A → B)
    (h : nat → A → C) (l : list A) :
  (∀ i x, c (f i x) = Some (h i x)) → omap c (imap f l) = imap h l.
Proof.
  revert f h. induction l as [|x l IH]; intros f h H; [done|].
  simpl. rewrite H. f_equal. apply IH. intros i y. apply H.
Qed.

Lemma memoCells_transcript loading (ms : list message) :
  omap cellOf (nodes (transcript loading ms))
  = imap (λ i m, (i, messageElement loading (length ms) i m)) ms.
Proof.
  rewrite nodes_transcript. destruct ms as [|m ms]; [done|].
  apply omap_imap_Some. intros i x. by rewrite messageCell_element.
Qed.

(** The cells of the tree are the images of the messages, in order. *)
Lemma memoCells_ChatInterface conv loading inp :
  memoCells (ChatInterface conv loading inp) =
  match conv with
  | Some c =>
      imap (λ i m, (i, messageElement loading (length (messages c)) i m))
           (messages c)
  | None => []
  end.
Proof.
  unfold memoCells. destruct conv as [c|]; [|done].
  rewrite nodes_ChatInterface_Some, !omap_app, memoCells_transcript.
  destruct loading; cbn; by rewrite app_nil_r.
Qed.

(** C2: the cells of a conversation's tree follow the messages in sequence
    order, one cell per message, the cell of the message at index [i]
    carrying key [i]; the [isActive] a cell is given is the conjunction of
    the loading flag, of the message being the last of the sequence and of
    it being an assistant message, so every other cell has it clear. *)
Theorem cells_follow_messages (conv : conversation_t) (loading : bool)
    (inp : jsstring) (i : nat) (m : message) :
  messages conv !! i = Some m →
  let tree := ChatInterface (Some conv) loading inp in
  length (memoCells tree) = length (messages conv)
  ∧ ∃ e, memoCells tree !! i = Some (i, e)
         ∧ shows e m
         ∧ activeFlag e
           = loading && isLast i (length (messages conv)) && negb (isUser m).
Proof.
  intros Hm. cbn zeta. rewrite memoCells_ChatInterface. split.
  - by rewrite length_imap.
  - exists (messageElement loading (length (messages conv)) i m).
    rewrite list_lookup_imap, Hm. split; [done|].
    unfold messageElement, shows, activeFlag.
    destruct (isUser m) eqn:Hu; cbn; rewrite ?Hu, ?andb_true_r, ?andb_false_r; done.
Qed.

(** ** The assistant cell *)

Lemma stageFragment_cases {A} `{!Payload A} flag indicator
    (payload : option A) render :
  isNothing indicator = false → (∀ x, isNothing (render x) = false) →
  stageFragment flag indicator payload render =
  (if flag then [indicator] else [])
  ++ option_list (render <$> truthyData payload)
  ++ option_list (Text <$> falsyText payload).
Proof.
  intros Hi Hr. unfold stageFragment, whenTruthy, truthyData, falsyText.
  destruct flag, payload as [x|]; try destruct (guard x); cbn;
    rewrite ?Hi, ?Hr; done.
Qed.

Lemma stageOutput_cases s m :
  stageOutput s m =
  (if stageFlag s m then [stageIndicator s] else [])
  ++ option_list (stageData s m) ++ option_list (stageResidue s m).
Proof. destruct s; by apply stageFragment_cases. Qed.

Lemma stage_child_exclusive s m :
  stageData s m = None ∨ stageResidue s m = None.
Proof.
  destruct s; cbn; unfold truthyData, falsyText.
  - destruct (stage1 m) as [x|]; [destruct (guard x)|]; cbn; auto.
  - destruct (stage2 m) as [x|]; [destruct (guard x)|]; cbn; auto.
  - destruct (stage3 m) as [x|]; [destruct (guard x)|]; cbn; auto.
Qed.

(** C3, as amended: the output of [AssistantMessage] is the label followed
    by the outputs of stage 1, stage 2 and stage 3, in this order.  The
    output of a stage holds that stage's loading indicator (the spinner and
    the caption of the stage) when its loading flag is set, and the element
    rendering its data when the data is there and truthy.  Data that is
    there but falsy is not rendered: such a stage shows nothing for it,
    unless the falsy value is one that React displays as text.  A stage
    with its flag clear and neither of the two shows nothing, and no stage
    shows anything else. *)
Theorem assistant_cell_stages (p : assistantProps) :
  let m := msg p in
  let indicator caption :=
    Host "div" [("className"%string, PString "stage-loading")] [
      Host "div" [("className"%string, PString "spinner")] [];
      Host "span" [] [Text (lit caption)]] in
  (∃ children,
     AssistantMessage p =
       Host "div" [("className"%string, PString "message-group")] [
         Host "div" [("className"%string, PString "assistant-message")] children]
     ∧ displayed children =
         Host "div" [("className"%string, PString "message-label")]
              [Text (lit "LLM Council")]
         :: stageOutput First m ++ stageOutput Second m ++ stageOutput Third m)
  ∧ (stageIndicator First
       = indicator "Running Stage 1: Collecting individual responses..."
     ∧ stageIndicator Second = indicator "Running Stage 2: Peer rankings..."
     ∧ stageIndicator Third = indicator "Running Stage 3: Final synthesis...")
  ∧ (stageFlag First m = from_option Loading.stage1 false (loading m)
     ∧ stageFlag Second m = from_option Loading.stage2 false (loading m)
     ∧ stageFlag Third m = from_option Loading.stage3 false (loading m))
  ∧ (stageData First m = Stage1El <$> truthyData (stage1 m)
     ∧ stageData Second m
       = (λ rankings, Stage2El rankings (metadata m ≫= label_to_model)
                               (metadata m ≫= aggregate_rankings))
         <$> truthyData (stage2 m)
     ∧ stageData Third m = Stage3El <$> truthyData (stage3 m))
  ∧ ∀ s,
      stageOutput s m
        = (if stageFlag s m then [stageIndicator s] else [])
          ++ option_list (stageData s m) ++ option_list (stageResidue s m)
      ∧ (stageFlag s m = true → stageIndicator s ∈ stageOutput s m)
      ∧ (∀ d, stageData s m = Some d → d ∈ stageOutput s m)
      ∧ (stageFlag s m = false → stageData s m = None →
         stageResidue s m = None → stageOutput s m = [])
      ∧ (stageData s m = None ∨ stageResidue s m = None).
Proof.
  cbn zeta. split; [|split; [done|split; [done|split; [done|]]]].
  - exists (assistantChildren (msg p)). split; [done|].
    rewrite !stageOutput_cases. unfold assistantChildren.
    cbn [stageFlag stageIndicator stageData stageResidue].
    unfold whenTruthy, truthyData, falsyText.
    destruct (loadingFlag (msg p) Loading.stage1),
      (loadingFlag (msg p) Loading.stage2),
      (loadingFlag (msg p) Loading.stage3);
      destruct (stage1 (msg p)) as [x1|]; try destruct (guard x1);
      destruct (stage2 (msg p)) as [x2|]; try destruct (guard x2);
      destruct (stage3 (msg p)) as [x3|]; try destruct (guard x3);
      reflexivity.
  - intros s. split; [apply stageOutput_cases|]. rewrite stageOutput_cases.
    split; [|split; [|split; [|apply stage_child_exclusive]]].
    + intros ->. apply elem_of_app. left. apply list_elem_of_here.
    + intros d ->. rewrite !elem_of_app. right. left. apply list_elem_of_here.
    + by intros -> -> ->.
Qed.

(** ** Render passes *)

Lemma updateMemo_frame cur key e w :
  let w' := (updateMemo cur key e w).2 in
  input w' = input w ∧ pendingDeps w' = pendingDeps w ∧ cells w' = cells w
  ∧ textareaAttached w' = textareaAttached w ∧ timers w' = timers w
  ∧ calls w' = calls w.
Proof.
  unfold updateMemo. destruct cur as [f|]; [|done].
  by destruct (bailsOut (memoized f) e).
Qed.

Lemma reconcileChildren_cons cur key e rest w :
  reconcileChildren cur ((key, e) :: rest) w =
  let s := updateMemo (cur !! key) key e w in
  let r := reconcileChildren cur rest s.2 in
  (<[key := s.1]> r.1, r.2).
Proof. reflexivity. Qed.

Lemma reconcileChildren_frame cur els w :
  let w' := (reconcileChildren cur els w).2 in
  input w' = input w ∧ pendingDeps w' = pendingDeps w ∧ cells w' = cells w
  ∧ textareaAttached w' = textareaAttached w ∧ timers w' = timers w
  ∧ calls w' = calls w.
Proof.
  revert w. induction els as [|[key e] rest IH]; intros w; [done|].
  rewrite reconcileChildren_cons. cbn zeta. cbn [snd].
  destruct (IH (updateMemo (cur !! key) key e w).2) as (-> & -> & -> & -> & -> & ->).
  apply updateMemo_frame.
Qed.

Lemma render_unfold p w :
  let tree := ChatInterface (conversation p) (isLoading p) (input w) in
  let r := reconcileChildren (cells w) (memoCells tree) w in
  exec (render p) w =
  exec (rememberDeps (pendingInput p))
    (exec (if depsChanged (pendingDeps w) (pendingInput p)
           then pendingInputEffect (pendingInput p) else mret tt)
       (exec (commitTree r.1 (attached textareaRef tree)) r.2)).
Proof. reflexivity. Qed.

Lemma render_cells p w :
  cells (exec (render p) w) =
  (reconcileChildren (cells w)
     (memoCells (ChatInterface (conversation p) (isLoading p) (input w))) w).1.
Proof.
  rewrite render_unfold. cbn zeta.
  by destruct (depsChanged _ _), (pendingInput p).
Qed.

Lemma render_invocations p w :
  invocations (exec (render p) w) =
  invocations (reconcileChildren (cells w)
     (memoCells (ChatInterface (conversation p) (isLoading p) (input w))) w).2.
Proof.
  rewrite render_unfold. cbn zeta.
  by destruct (depsChanged _ _), (pendingInput p).
Qed.

Lemma render_nextRef p w :
  nextRef (exec (render p) w) =
  nextRef (reconcileChildren (cells w)
     (memoCells (ChatInterface (conversation p) (isLoading p) (input w))) w).2.
Proof.
  rewrite render_unfold. cbn zeta.
  by destruct (depsChanged _ _), (pendingInput p).
Qed.

Lemma render_pendingDeps p w :
  pendingDeps (exec (render p) w) = Some (pendingInput p).
Proof. reflexivity. Qed.

Lemma render_textareaAttached p w :
  textareaAttached (exec (render p) w) =
  attached textareaRef (ChatInterface (conversation p) (isLoading p) (input w)).
Proof.
  rewrite render_unfold. cbn zeta.
  by destruct (depsChanged _ _), (pendingInput p).
Qed.

(** What the [pendingInput] effect of a pass does, if anything. *)
Lemma render_effect p w :
  let w' := exec (render p) w in
  match pendingInput p with
  | Some text =>
      if depsChanged (pendingDeps w) (Some text) then
        input w' = text
        ∧ calls w' = calls w ++ [onPendingInputConsumed]
        ∧ timers w' = timers w ++ [(focusTextarea, 0%Z)]
      else input w' = input w ∧ calls w' = calls w ∧ timers w' = timers w
  | None => input w' = input w ∧ calls w' = calls w ∧ timers w' = timers w
  end.
Proof.
  cbn zeta. rewrite render_unfold. cbn zeta.
  set (r := reconcileChildren _ _ w).
  destruct (reconcileChildren_frame (cells w)
    (memoCells (ChatInterface (conversation p) (isLoading p) (input w))) w)
    as (Hi & _ & _ & _ & Ht & Hc). fold r in Hi, Ht, Hc.
  destruct (pendingInput p) as [text|].
  - destruct (depsChanged (pendingDeps w) (Some text)); cbn; by rewrite ?Hi, ?Ht, ?Hc.
  - destruct (depsChanged (pendingDeps w) None); cbn; by rewrite ?Hi, ?Ht, ?Hc.
Qed.

(** ** Placeholders and the loading indicator *)

(** C8: with no conversation selected the tree is the welcome placeholder
    alone and has no message cell; with a selected conversation of zero
    messages the tree shows the "Start a conversation" placeholder, which
    differs from the welcome placeholder, and has no message cell.  In
    both cases the pass leaves no cell mounted and calls no message
    component. *)
Theorem placeholders_without_cells (p : chatProps) (w : world) :
  let tree := ChatInterface (conversation p) (isLoading p) (input w) in
  ((conversation p = None) →
     tree = el "div" "chat-interface" [welcomePlaceholder]
     ∧ (startPlaceholder ∉ nodes tree)
     ∧ memoCells tree = [])
  ∧ (∀ conv, conversation p = Some conv → messages conv = [] →
     startPlaceholder ∈ nodes tree
     ∧ (welcomePlaceholder ∉ nodes tree)
     ∧ memoCells tree = [])
  ∧ startPlaceholder ≠ welcomePlaceholder
  ∧ (((conversation p = None)
      ∨ ∃ conv, conversation p = Some conv ∧ messages conv = []) →
     cells (exec (render p) w) = ∅
     ∧ invocations (exec (render p) w) = invocations w).
Proof.
  cbn zeta. split; [|split; [|split]].
  - intros ->. split; [done|]. split; [|done].
    rewrite nodes_ChatInterface_None. intros H. node_cases H.
  - intros conv -> Hms. rewrite memoCells_ChatInterface, Hms. split; [|split; [|done]].
    + rewrite nodes_ChatInterface_Some, Hms, nodes_transcript, nodes_startPlaceholder.
      set_solver.
    + rewrite nodes_ChatInterface_Some, Hms. intros H.
      destruct (isLoading p); cbn [when] in H; node_cases H.
  - discriminate.
  - intros H.
    assert (memoCells (ChatInterface (conversation p) (isLoading p) (input w)) = [])
      as Hc.
    { rewrite memoCells_ChatInterface. by destruct H as [->|(conv & -> & ->)]. }
    by rewrite render_cells, render_invocations, Hc.
Qed.

Lemma indicator_needs_conversation flag inp :
  loadingIndicator ∉ nodes (ChatInterface None flag inp).
Proof. intros H. rewrite nodes_ChatInterface_None in H. node_cases H. Qed.

(** C9, as amended: with a conversation selected, the loading indicator is
    in the tree exactly when the loading flag is set; it is then a child of
    the messages container, occurs once, and comes after every message cell
    in document order.  With no conversation selected the tree has no
    loading indicator, whatever the flag. *)
Theorem loading_indicator_follows_cells (conv : conversation_t)
    (loading : bool) (inp : jsstring) :
  let tree := ChatInterface (Some conv) loading inp in
  (loading = true →
     ∃ before after,
       nodes tree = before ++ nodes loadingIndicator ++ after
       ∧ memoCells tree = omap cellOf before
       ∧ (loadingIndicator ∉ before) ∧ (loadingIndicator ∉ after)
       ∧ displayed [transcript loading (messages conv);
                    when loading loadingIndicator; messagesEnd]
         = [transcript loading (messages conv); loadingIndicator; messagesEnd])
  ∧ (loading = false → loadingIndicator ∉ nodes tree)
  ∧ (∀ flag, loadingIndicator ∉ nodes (ChatInterface None flag inp)).
Proof.
  cbn zeta. split; [|split].
  - intros ->. rewrite nodes_ChatInterface_Some. cbn [when].
    eexists (_ ++ _), _. split; [by rewrite <- app_assoc|].
    split; [|split; [|split]].
    + unfold memoCells. rewrite nodes_ChatInterface_Some, !omap_app.
      cbn. by rewrite app_nil_r.
    + intros H. node_cases H.
    + intros H. node_cases H.
    + unfold displayed, transcript.
      by destruct (Z.of_nat (length (messages conv)) =? 0)%Z.
  - intros -> H. rewrite nodes_ChatInterface_Some in H. cbn [when] in H.
    node_cases H.
  - intros flag. apply indicator_needs_conversation.
Qed.

(** ** Memo cells *)

Lemma updateMemo_keeps cur key e w :
  keeps cur e = true → updateMemo cur key e w = (default (freshCell e 0) cur, w).
Proof.
  unfold keeps, updateMemo. destruct cur as [f|]; [|done]. by intros ->.
Qed.

Lemma updateMemo_renders cur key e w :
  keeps cur e = false →
  updateMemo cur key e w = (freshCell e (nextRef w), (invoke key e w).2).
Proof.
  unfold keeps, updateMemo. destruct cur as [f|]; [|done]. by intros ->.
Qed.

Lemma invocationsOf_invoke k key e w :
  invocationsOf k (invoke key e w).2 =
  (invocationsOf k w + if bool_decide (key = k) then 1 else 0)%nat.
Proof.
  unfold invocationsOf, invoke. cbn [snd invocations].
  rewrite filter_app, length_app. f_equal.
  rewrite filter_cons. cbn [fst]. by repeat case_decide; case_bool_decide.
Qed.

Lemma updateMemo_nextRef cur key e w :
  (nextRef w ≤ nextRef (updateMemo cur key e w).2)%nat.
Proof.
  destruct (keeps cur e) eqn:Hk.
  - by rewrite updateMemo_keeps.
  - rewrite updateMemo_renders by done. cbn. lia.
Qed.

Lemma reconcileChildren_nextRef cur els w :
  (nextRef w ≤ nextRef (reconcileChildren cur els w).2)%nat.
Proof.
  revert w. induction els as [|[key e] rest IH]; intros w; [done|].
  rewrite reconcileChildren_cons. cbn zeta. cbn [snd].
  etrans; [apply (updateMemo_nextRef (cur !! key) key e)|apply IH].
Qed.

(** Keys the new children do not use are left without a cell and without
    a call. *)
Lemma reconcileChildren_absent cur els w k :
  k ∉ els.*1 →
  (reconcileChildren cur els w).1 !! k = None
  ∧ invocationsOf k (reconcileChildren cur els w).2 = invocationsOf k w.
Proof.
  revert w. induction els as [|[key e] rest IH]; intros w Hk; [done|].
  rewrite reconcileChildren_cons. cbn zeta. cbn [fst snd].
  rewrite fmap_cons, not_elem_of_cons in Hk. destruct Hk as [Hne Hk]. cbn in Hne.
  rewrite lookup_insert_ne by done.
  destruct (IH (updateMemo (cur !! key) key e w).2 Hk) as [-> ->].
  split; [done|].
  destruct (keeps (cur !! key) e) eqn:Hkeep.
  - by rewrite updateMemo_keeps.
  - rewrite updateMemo_renders by done. cbn [snd].
    rewrite invocationsOf_invoke, bool_decide_eq_false_2 by done. lia.
Qed.

(** What a reconciliation does to the cell of one of its keyed elements. *)
Lemma reconcileChildren_cell cur els w k e :
  NoDup els.*1 → (k, e) ∈ els →
  let r := reconcileChildren cur els w in
  if keeps (cur !! k) e then
    r.1 !! k = cur !! k ∧ invocationsOf k r.2 = invocationsOf k w
  else
    ∃ o, r.1 !! k = Some (freshCell e o)
         ∧ (nextRef w ≤ o < nextRef r.2)%nat
         ∧ invocationsOf k r.2 = S (invocationsOf k w).
Proof.
  cbn zeta. revert w. induction els as [|[key e'] rest IH]; intros w Hnd Hin.
  { by apply elem_of_nil in Hin. }
  rewrite fmap_cons in Hnd. apply NoDup_cons in Hnd as [Hfresh Hnd]. cbn in Hfresh.
  rewrite reconcileChildren_cons. cbn zeta. cbn [fst snd].
  apply elem_of_cons in Hin as [[= <- <-]|Hin].
  - rewrite lookup_insert_eq.
    destruct (reconcileChildren_absent cur rest
                (updateMemo (cur !! k) k e w).2 k Hfresh) as [_ ->].
    pose proof (reconcileChildren_nextRef cur rest
                  (updateMemo (cur !! k) k e w).2) as Hle.
    destruct (keeps (cur !! k) e) eqn:Hkeep.
    + rewrite updateMemo_keeps by done. cbn [fst snd]. split; [|done].
      unfold keeps in Hkeep. by destruct (cur !! k).
    + rewrite updateMemo_renders in * by done. cbn [fst snd] in *.
      exists (nextRef w). split; [done|]. split.
      { change (nextRef (invoke k e w).2) with (S (nextRef w)) in Hle at 1. lia. }
      rewrite invocationsOf_invoke, bool_decide_eq_true_2 by done. lia.
  - assert (key ≠ k) as Hne.
    { intros ->. apply Hfresh. apply list_elem_of_fmap. by exists (k, e). }
    rewrite lookup_insert_ne by done.
    specialize (IH (updateMemo (cur !! key) key e' w).2 Hnd Hin).
    pose proof (updateMemo_nextRef (cur !! key) key e' w) as Hle.
    assert (invocationsOf k (updateMemo (cur !! key) key e' w).2
            = invocationsOf k w) as Hinv.
    { destruct (keeps (cur !! key) e') eqn:Hkeep.
      - by rewrite updateMemo_keeps.
      - rewrite updateMemo_renders by done. cbn [snd].
        rewrite invocationsOf_invoke, bool_decide_eq_false_2 by done. lia. }
    destruct (keeps (cur !! k) e).
    + destruct IH as [-> ->]. done.
    + destruct IH as (o & -> & Ho & ->). exists o. rewrite Hinv.
      split; [done|]. split; [lia|done].
Qed.

Lemma reconcileChildren_coherent cur els w :
  NoDup els.*1 →
  (∀ key f, cur !! key = Some f →
     (ref (output f) < nextRef w)%nat ∧ node (output f) = body (memoized f)) →
  ∀ key f, (reconcileChildren cur els w).1 !! key = Some f →
    (ref (output f) < nextRef (reconcileChildren cur els w).2)%nat
    ∧ node (output f) = body (memoized f).
Proof.
  intros Hnd Hcur key f Hf.
  destruct (decide (key ∈ els.*1)) as [Hin|Hout].
  - apply list_elem_of_fmap in Hin as ([k e] & -> & Hin). cbn [fst] in Hf.
    pose proof (reconcileChildren_cell cur els w k e Hnd Hin) as Hcell.
    pose proof (reconcileChildren_nextRef cur els w) as Hle.
    cbn zeta in Hcell. destruct (keeps (cur !! k) e).
    + destruct Hcell as [Hsame _]. rewrite Hsame in Hf.
      destruct (Hcur k f Hf). split; [lia|done].
    + destruct Hcell as (o & Hfresh & Ho & _). rewrite Hfresh in Hf.
      injection Hf as <-. split; [cbn; lia|done].
  - destruct (reconcileChildren_absent cur els w key Hout) as [Hnone _].
    congruence.
Qed.

Lemma cell_keys (g : nat → message → memo_element) (ms : list message) :
  NoDup (imap (λ i m, (i, g i m)) ms).*1.
Proof.
  apply NoDup_alt. intros i j k Hi Hj.
  rewrite list_lookup_fmap, list_lookup_imap in Hi, Hj.
  destruct (ms !! i), (ms !! j); naive_solver.
Qed.

Lemma render_coherent p w : coherent w → coherent (exec (render p) w).
Proof.
  intros Hw key f. rewrite render_cells, render_nextRef.
  apply reconcileChildren_coherent; [|done].
  rewrite memoCells_ChatInterface. destruct (conversation p).
  - apply cell_keys.
  - constructor.
Qed.

Lemma mountWorld_coherent : coherent mountWorld.
Proof.
  intros key f H. change (cells mountWorld) with (∅ : gmap nat fiber) in H.
  by rewrite lookup_empty in H.
Qed.

Lemma runTimers_unfold w :
  exec runTimers w =
  exec (foldr (λ t k, _ ← runCallback t.1; k) (mret tt) (timers w))
       (exec clearTimers w).
Proof. reflexivity. Qed.

Lemma coherent_frame w w' :
  cells w' = cells w → nextRef w' = nextRef w → coherent w → coherent w'.
Proof. intros Hc Hn Hw key f. rewrite Hc, Hn. apply Hw. Qed.

Lemma handleSubmit_frame inp loading w :
  cells (exec (handleSubmit inp loading) w) = cells w
  ∧ nextRef (exec (handleSubmit inp loading) w) = nextRef w.
Proof.
  unfold handleSubmit, exec, mbind, M_bind.
  by destruct (truthy (trim inp) && negb loading).
Qed.

Lemma runCallback_frame cb w :
  cells (exec (runCallback cb) w) = cells w
  ∧ nextRef (exec (runCallback cb) w) = nextRef w.
Proof.
  destruct cb. unfold exec, runCallback, mbind, M_bind, get. cbn [fst snd].
  by destruct (textareaAttached w).
Qed.

Lemma callbacks_cons (t : callback * Z) ts w :
  exec (foldr (λ t k, _ ← runCallback t.1; k) (mret tt) (t :: ts)) w =
  exec (foldr (λ t k, _ ← runCallback t.1; k) (mret tt) ts)
       (exec (runCallback t.1) w).
Proof. reflexivity. Qed.

Lemma callbacks_frame (ts : list (callback * Z)) w :
  let k := foldr (λ t k, _ ← runCallback t.1; k) (mret tt) ts in
  cells (exec k w) = cells w ∧ nextRef (exec k w) = nextRef w.
Proof.
  cbn zeta. revert w. induction ts as [|t ts IH]; intros w; [done|].
  rewrite callbacks_cons.
  destruct (IH (exec (runCallback t.1) w)) as [-> ->].
  apply runCallback_frame.
Qed.

Lemma step_coherent ev w : coherent w → coherent (exec (step ev) w).
Proof.
  destruct ev as [p|p|key shiftKey p|value|]; cbn [step].
  - apply render_coherent.
  - apply coherent_frame; apply handleSubmit_frame.
  - change (exec _ w)
      with (handleKeyDown key shiftKey (input w) (isLoading p) w).2.
    rewrite handleKeyDown_unfold.
    destruct (bool_decide (key = lit "Enter") && negb shiftKey); [|done].
    apply coherent_frame;
      apply (handleSubmit_frame (input w) (isLoading p)
               (exec (perform preventDefault) w)).
  - by apply coherent_frame.
  - rewrite runTimers_unfold.
    apply coherent_frame; apply (callbacks_frame (timers w) (exec clearTimers w)).
Qed.

(** Every world the instance reaches from its mount is coherent. *)
Lemma run_coherent evs w : coherent w → coherent (exec (run evs) w).
Proof.
  revert w. induction evs as [|ev evs IH]; intros w Hw; [done|].
  apply (IH (exec (step ev) w)). by apply step_coherent.
Qed.

(** What a pass does to the cell of the message at index [i]. *)
Lemma render_cell p w conv i m :
  conversation p = Some conv → messages conv !! i = Some m →
  let e := messageElement (isLoading p) (length (messages conv)) i m in
  let w' := exec (render p) w in
  if keeps (cells w !! i) e then
    cells w' !! i = cells w !! i ∧ invocationsOf i w' = invocationsOf i w
  else
    ∃ o, cells w' !! i = Some (freshCell e o)
         ∧ (nextRef w ≤ o < nextRef w')%nat
         ∧ invocationsOf i w' = S (invocationsOf i w).
Proof.
  intros Hc Hm. cbn zeta. unfold invocationsOf at 1 3.
  rewrite render_cells, render_invocations, render_nextRef.
  rewrite memoCells_ChatInterface, Hc.
  apply (reconcileChildren_cell (cells w)); [apply cell_keys|].
  apply elem_of_lookup_imap. eauto.
Qed.

Lemma areEqual_spec prev next :
  areEqual prev next = negb (isActive prev || isActive next).
Proof. unfold areEqual. by destruct (isActive prev || isActive next). Qed.

Lemma messageElement_assistant loading len i m :
  isUser m = false →
  messageElement loading len i m =
  AssistantMessageEl {| msg := m; isActive := loading && isLast i len |}.
Proof. unfold messageElement. by intros ->. Qed.

Lemma messageElement_user loading len i m :
  isUser m = true → messageElement loading len i m = UserMessageEl (content m).
Proof. unfold messageElement. by intros ->. Qed.

(** C1: take two consecutive passes in which index [i] holds an assistant
    message.  After the first pass the cell remembers props whose
    [isActive] is the one that pass computed; on these and the props of the
    second pass the comparator returns true exactly when [isActive] is
    clear in both.  If [isActive] is set in either pass, the second pass
    calls [AssistantMessage] once for the cell and stores its output in a
    new element object; otherwise it calls nothing for the cell and the
    cell holds the very element object it held after the first pass. *)
Theorem assistant_cell_recomputes_iff_active (i : nat) (p1 p2 : chatProps)
    (m1 m2 : message) (w : world) :
  coherent w → assistantAt i m1 p1 → assistantAt i m2 p2 →
  let w1 := exec (render p1) w in
  let w2 := exec (render p2) w1 in
  let next := {| msg := m2; isActive := activeAt i p2 |} in
  ∃ f1 prev,
    cells w1 !! i = Some f1
    ∧ memoized f1 = AssistantMessageEl prev
    ∧ isActive prev = activeAt i p1
    ∧ areEqual prev next = negb (activeAt i p1 || activeAt i p2)
    ∧ if activeAt i p1 || activeAt i p2 then
        ∃ o, cells w2 !! i =
               Some {| memoized := AssistantMessageEl next;
                       output := {| ref := o; node := AssistantMessage next |} |}
             ∧ o ≠ ref (output f1)
             ∧ invocationsOf i w2 = S (invocationsOf i w1)
      else
        cells w2 !! i = Some f1 ∧ invocationsOf i w2 = invocationsOf i w1.
Proof.
  intros Hw (c1 & Hc1 & Hm1 & Hu1) (c2 & Hc2 & Hm2 & Hu2). cbn zeta.
  pose proof (render_coherent p1 w Hw) as Hw1.
  pose proof (render_cell p1 w c1 i m1 Hc1 Hm1) as H1.
  pose proof (render_cell p2 (exec (render p1) w) c2 i m2 Hc2 Hm2) as H2.
  cbn zeta in H1, H2.
  rewrite messageElement_assistant in H1, H2 by done.
  unfold activeAt. rewrite Hc1, Hc2. cbn [from_option].
  set (a1 := isLoading p1 && isLast i (length (messages c1))) in *.
  set (a2 := isLoading p2 && isLast i (length (messages c2))) in *.
  assert (∃ f1 prev, cells (exec (render p1) w) !! i = Some f1
            ∧ memoized f1 = AssistantMessageEl prev ∧ isActive prev = a1)
    as (f1 & prev & Hf1 & Hprev & Hact).
  { destruct (keeps (cells w !! i) _) eqn:Hk.
    - destruct H1 as [H1 _]. unfold keeps in Hk.
      destruct (cells w !! i) as [f0|]; [|done]. exists f0.
      destruct (memoized f0) as [|q]; [done|]. exists q. cbn in Hk.
      rewrite areEqual_spec in Hk. cbn in Hk.
      apply negb_true_iff, orb_false_iff in Hk as [Hq Ha]. by rewrite Hq, Ha.
    - destruct H1 as (o & H1 & _). eauto. }
  exists f1, prev. split; [done|]. split; [done|]. split; [done|].
  rewrite Hf1 in H2. unfold keeps in H2. rewrite Hprev in H2. cbn [bailsOut] in H2.
  rewrite areEqual_spec in *. cbn [isActive] in *. rewrite Hact in *.
  split; [done|]. destruct (a1 || a2); cbn [negb] in H2.
  - destruct H2 as (o & H2 & Ho & Hinv). exists o. split; [done|]. split; [|done].
    destruct (Hw1 i f1 Hf1). lia.
  - exact H2.
Qed.

Lemma renders_cons p ps w :
  exec (renders (p :: ps)) w = exec (renders ps) (exec (render p) w).
Proof. reflexivity. Qed.

Lemma messageElement_userAt i c p conv m :
  conversation p = Some conv → messages conv !! i = Some m →
  isUser m = true → content m = c →
  messageElement (isLoading p) (length (messages conv)) i m = UserMessageEl c.
Proof. intros _ _ Hu <-. by apply messageElement_user. Qed.

(** A mounted user cell survives any pass that still shows its text. *)
Lemma render_keeps_user_cell i c p w f :
  userAt i c p → cells w !! i = Some f → memoized f = UserMessageEl c →
  cells (exec (render p) w) !! i = Some f
  ∧ invocationsOf i (exec (render p) w) = invocationsOf i w.
Proof.
  intros (conv & m & Hc & Hm & Hu & Hcontent) Hf Hmemo.
  pose proof (render_cell p w conv i m Hc Hm) as H. cbn zeta in H.
  rewrite (messageElement_userAt i c p conv m) in H by done.
  rewrite Hf in H. unfold keeps in H. rewrite Hmemo in H. cbn [bailsOut] in H.
  unfold shallowEqual in H. rewrite bool_decide_eq_true_2 in H by done.
  exact H.
Qed.

Lemma renders_keep_user_cell i c ps w f :
  Forall (userAt i c) ps → cells w !! i = Some f → memoized f = UserMessageEl c →
  cells (exec (renders ps) w) !! i = Some f
  ∧ invocationsOf i (exec (renders ps) w) = invocationsOf i w.
Proof.
  intros Hps. revert w. induction Hps as [|p ps Hp _ IH]; intros w Hf Hmemo; [done|].
  rewrite renders_cons.
  destruct (render_keeps_user_cell i c p w f Hp Hf Hmemo) as [Hf' Hinv].
  destruct (IH (exec (render p) w) Hf' Hmemo) as [-> ->]. done.
Qed.

(** C4: let index [i] hold a user message with the same text throughout a
    run of passes whose other props, other messages and [input] state vary
    freely.  After the first pass the cell holds the output of
    [UserMessage] for that text; after the whole run it holds the very same
    element object, and [UserMessage] has not been called for the cell
    since the first pass, which itself called it at most once. *)
Theorem user_cell_is_computed_once (i : nat) (c : jsstring)
    (p0 : chatProps) (ps : list chatProps) (w : world) :
  coherent w → userAt i c p0 → Forall (userAt i c) ps →
  let w0 := exec (render p0) w in
  let w' := exec (renders ps) w0 in
  ∃ f,
    cells w0 !! i = Some f
    ∧ memoized f = UserMessageEl c
    ∧ node (output f) = UserMessage c
    ∧ cells w' !! i = Some f
    ∧ invocationsOf i w' = invocationsOf i w0
    ∧ (invocationsOf i w0 ≤ S (invocationsOf i w))%nat.
Proof.
  intros Hw Hp0 Hps. cbn zeta.
  assert (∃ f, cells (exec (render p0) w) !! i = Some f
               ∧ memoized f = UserMessageEl c
               ∧ (invocationsOf i (exec (render p0) w) ≤ S (invocationsOf i w))%nat)
    as (f & Hf & Hmemo & Hinv).
  { destruct Hp0 as (conv & m & Hc & Hm & Hu & Hcontent).
    pose proof (render_cell p0 w conv i m Hc Hm) as H. cbn zeta in H.
    rewrite (messageElement_userAt i c p0 conv m) in H by done.
    destruct (keeps (cells w !! i) (UserMessageEl c)) eqn:Hk.
    - destruct H as [H ->]. unfold keeps in Hk.
      destruct (cells w !! i) as [f0|]; [|done]. exists f0.
      split; [done|]. split; [|lia].
      destruct (memoized f0) as [c0|]; [|done]. cbn in Hk.
      by apply bool_decide_eq_true in Hk as ->.
    - destruct H as (o & H & _ & ->). eauto. }
  exists f. split; [done|]. split; [done|].
  destruct (render_coherent p0 w Hw i f Hf) as [_ Hnode].
  rewrite Hmemo in Hnode. split; [done|].
  destruct (renders_keep_user_cell i c ps _ f Hps Hf Hmemo) as [-> ->]. done.
Qed.

(** ** Input recovery *)

Lemma attached_textarea conv loading inp :
  attached textareaRef (ChatInterface conv loading inp)
  = bool_decide (is_Some conv).
Proof.
  unfold attached. destruct conv as [c|]; [|done].
  rewrite nodes_ChatInterface_Some, !existsb_app. cbn. by rewrite !orb_true_r.
Qed.

(** C5: a pass whose [pendingInput] is a text the effect has not seen at
    the previous commit (a) ends with that text as the [input] state,
    whatever [input] held before, (b) makes one call in the pass,
    [onPendingInputConsumed], and (c) queues one timer of delay 0, the
    focus of the textarea, which runs only when the timers are drained
    after the pass.  A following pass that finds the same text or an empty
    slot in [pendingInput] restores nothing, calls nothing and queues
    nothing. *)
Theorem pending_input_is_restored_once (p : chatProps) (w : world)
    (text : jsstring) :
  pendingInput p = Some text →
  pendingDeps w ≠ Some (Some text) →
  let w1 := exec (render p) w in
  input w1 = text
  ∧ calls w1 = calls w ++ [onPendingInputConsumed]
  ∧ timers w1 = timers w ++ [(focusTextarea, 0%Z)]
  ∧ textareaAttached w1 = bool_decide (is_Some (conversation p))
  ∧ (timers w = [] →
     calls (exec runTimers w1)
       = calls w1 ++ (if textareaAttached w1 then [focus] else [])
     ∧ timers (exec runTimers w1) = []
     ∧ input (exec runTimers w1) = text)
  ∧ (∀ p', ((pendingInput p' = Some text) ∨ (pendingInput p' = None)) →
     let w2 := exec (render p') w1 in
     input w2 = input w1 ∧ calls w2 = calls w1 ∧ timers w2 = timers w1).
Proof.
  intros Hp Hdeps. cbn zeta.
  pose proof (render_effect p w) as H. cbn zeta in H. rewrite Hp in H.
  assert (depsChanged (pendingDeps w) (Some text) = true) as Hch.
  { unfold depsChanged. destruct (pendingDeps w) as [d|]; [|done].
    apply negb_true_iff, bool_decide_eq_false. congruence. }
  rewrite Hch in H. destruct H as (Hi & Hc & Ht).
  split; [done|]. split; [done|]. split; [done|].
  split; [by rewrite render_textareaAttached, attached_textarea|]. split.
  - intros Hnil. rewrite Hnil in Ht. cbn [app] in Ht.
    rewrite runTimers_unfold, Ht. unfold exec. cbn.
    destruct (textareaAttached _); cbn; by rewrite ?app_nil_r.
  - intros p' Hp'. cbn zeta.
    pose proof (render_effect p' (exec (render p) w)) as H. cbn zeta in H.
    rewrite render_pendingDeps, Hp in H.
    destruct Hp' as [Hp'|Hp']; rewrite Hp' in H; [|done].
    unfold depsChanged in H. by rewrite bool_decide_eq_true_2 in H.
Qed.

(** ** Unresolved labels *)

Lemma texts_items (f : jsstring → jsstring) (labels : list jsstring) :
  omap textOf (flat_map nodes ((λ l, Host "li" [] [Text (f l)]) <$> labels))
  = f <$> labels.
Proof. induction labels as [|l labels IH]; [done|]. cbn. by rewrite IH. Qed.

Lemma texts_rankingBlock labelToModel r :
  texts (rankingBlock labelToModel r)
  = ranker r :: (resolveLabel labelToModel <$> order r).
Proof.
  unfold texts, rankingBlock, el. cbn [nodes flat_map].
  rewrite !app_nil_r. cbn [app omap list_omap textOf]. f_equal.
  apply texts_items.
Qed.

Lemma rankingBlock_in_Stage2 rankings labelToModel aggregate r :
  r ∈ rankings →
  rankingBlock labelToModel r ∈ nodes (Stage2 rankings labelToModel aggregate).
Proof.
  intros Hr. unfold Stage2, el. cbn [nodes]. apply list_elem_of_further.
  apply list_elem_of_In, in_flat_map. exists (rankingBlock labelToModel r). split.
  - apply list_elem_of_In, elem_of_app. left. by apply list_elem_of_fmap_2.
  - by left.
Qed.

(** C7: when a ranking of a message's stage-2 data names a label that the
    message's label-to-model mapping does not resolve (the mapping lacks
    the label, or the message has no mapping at all), the stage-2 renderer
    still yields its fragment for the props [AssistantMessage] passes, the
    fragment holds the block of that ranking, and the block displays the
    label itself at the label's place in the ranking. *)
Theorem unresolved_label_is_shown_raw (m : message) (rankings : list ranking)
    (r : ranking) (i : nat) (label : jsstring) :
  stage2 m = Some rankings → r ∈ rankings → order r !! i = Some label →
  (metadata m ≫= label_to_model) ≫= (.!! label) = None →
  let labelToModel := metadata m ≫= label_to_model in
  stageData Second m
    = Some (Stage2El rankings labelToModel (metadata m ≫= aggregate_rankings))
  ∧ ∃ fragment,
      stage2Fragment m = Some fragment
      ∧ rankingBlock labelToModel r ∈ nodes fragment
      ∧ texts (rankingBlock labelToModel r) !! S i = Some label
      ∧ resolveLabel labelToModel label = label.
Proof.
  intros Hs Hr Hi Hnone. cbn zeta. split.
  { cbn. by rewrite Hs. }
  eexists. split; [unfold stage2Fragment; by rewrite Hs|].
  assert (resolveLabel (metadata m ≫= label_to_model) label = label) as Hres.
  { unfold resolveLabel. by rewrite Hnone. }
  split; [by apply rankingBlock_in_Stage2|]. split; [|done].
  rewrite texts_rankingBlock, lookup_cons, list_lookup_fmap, Hi. cbn.
  by rewrite Hres.
Qed.

(** * Further properties *)

(** ** Sending *)

Lemma handleSubmit_world inp loading w :
  exec (handleSubmit inp loading) w =
  if truthy (trim inp) && negb loading then
    exec (setInput (lit ""))
      (exec (perform (onSendMessage inp)) (exec (perform preventDefault) w))
  else exec (perform preventDefault) w.
Proof.
  destruct (truthy (trim inp) && negb loading) eqn:H.
  - by apply handleSubmit_sends.
  - unfold exec. by rewrite handleSubmit_rejects.
Qed.

Lemma sent_app w (cs : list call) :
  omap sentText (calls w ++ cs) = sent w ++ omap sentText cs.
Proof. apply omap_app. Qed.

Lemma handleSubmit_sent inp loading w :
  let w' := exec (handleSubmit inp loading) w in
  if truthy (trim inp) && negb loading then
    sent w' = sent w ++ [inp] ∧ input w' = []
    ∧ calls w' = calls w ++ [preventDefault; onSendMessage inp]
  else sent w' = sent w ∧ input w' = input w
       ∧ calls w' = calls w ++ [preventDefault].
Proof.
  cbn zeta. rewrite handleSubmit_world.
  destruct (truthy (trim inp) && negb loading); unfold sent; cbn.
  - rewrite <- !app_assoc. cbn. by rewrite sent_app.
  - rewrite sent_app. cbn. by rewrite app_nil_r.
Qed.

Lemma handleSubmit_timers inp loading w :
  timers (exec (handleSubmit inp loading) w) = timers w
  ∧ textareaAttached (exec (handleSubmit inp loading) w) = textareaAttached w
  ∧ pendingDeps (exec (handleSubmit inp loading) w) = pendingDeps w.
Proof.
  rewrite handleSubmit_world. by destruct (truthy (trim inp) && negb loading).
Qed.

Lemma keyDown_unfold key shiftKey p w :
  exec (step (KeyDown key shiftKey p)) w =
  if bool_decide (key = lit "Enter") && negb shiftKey
  then exec (handleSubmit (input w) (isLoading p))
            (exec (perform preventDefault) w)
  else w.
Proof.
  change (exec (step (KeyDown key shiftKey p)) w)
    with (handleKeyDown key shiftKey (input w) (isLoading p) w).2.
  rewrite handleKeyDown_unfold.
  by destruct (bool_decide (key = lit "Enter") && negb shiftKey).
Qed.

(** X1: a key pressed in the textarea sends exactly when the key is Enter,
    Shift is not held, the input is not blank and [isLoading] is clear; it
    then sends the untrimmed input and empties it.  Any other key, and
    Enter with Shift, changes nothing at all; Enter on blank input or
    during a generation sends nothing and keeps the input.  Enter without
    Shift always calls [preventDefault], also when nothing is sent. *)
Theorem enter_key_sends_like_submit (key : jsstring) (shiftKey : bool)
    (p : chatProps) (w : world) :
  let w' := exec (step (KeyDown key shiftKey p)) w in
  (key = lit "Enter" → shiftKey = false → ¬ blank (input w) →
     isLoading p = false →
     sent w' = sent w ++ [input w] ∧ input w' = []
     ∧ calls w' = calls w ++ [preventDefault; preventDefault;
                               onSendMessage (input w)])
  ∧ ((key ≠ lit "Enter") ∨ shiftKey = true → w' = w)
  ∧ (blank (input w) ∨ isLoading p = true →
     sent w' = sent w ∧ input w' = input w)
  ∧ (key = lit "Enter" → shiftKey = false →
     ∃ rest, calls w' = calls w ++ preventDefault :: rest).
Proof.
  cbn zeta. rewrite keyDown_unfold. split; [|split; [|split]]; cycle 3.
  { intros -> ->. rewrite bool_decide_eq_true_2 by done. cbn [negb andb].
    pose proof (handleSubmit_sent (input w) (isLoading p)
                  (exec (perform preventDefault) w)) as H. cbn zeta in H.
    destruct (truthy (trim (input w)) && negb (isLoading p));
      destruct H as (_ & _ & ->); cbn; rewrite <- app_assoc; eauto. }
  - intros -> -> Hb%truthy_trim_true Hl.
    rewrite bool_decide_eq_true_2 by done. cbn [negb andb].
    pose proof (handleSubmit_sent (input w) (isLoading p)
                  (exec (perform preventDefault) w)) as H.
    cbn zeta in H. rewrite Hb, Hl in H. cbn [negb andb] in H.
    destruct H as (Hs & Hi & Hc). rewrite Hl. split; [|split; [done|]].
    + rewrite Hs. unfold sent. cbn. rewrite sent_app. cbn. by rewrite app_nil_r.
    + rewrite Hc. cbn. by rewrite <- app_assoc.
  - intros [Hk| ->].
    + by rewrite bool_decide_eq_false_2.
    + by rewrite andb_false_r.
  - intros H.
    destruct (bool_decide (key = lit "Enter") && negb shiftKey); [|done].
    pose proof (handleSubmit_sent (input w) (isLoading p)
                  (exec (perform preventDefault) w)) as Hs.
    cbn zeta in Hs.
    assert (truthy (trim (input w)) && negb (isLoading p) = false) as Hno.
    { destruct H as [Hb%truthy_trim| ->]; [by rewrite Hb|apply andb_false_r]. }
    change (input (exec (perform preventDefault) w)) with (input w) in Hs.
    rewrite Hno in Hs. destruct Hs as (Hs & Hi & _). rewrite Hs, Hi.
    split; [|done]. unfold sent. cbn. rewrite sent_app. cbn. by rewrite app_nil_r.
Qed.

Lemma submit_sent p w :
  let w' := exec (submit p) w in
  if truthy (trim (input w)) && negb (isLoading p) then
    sent w' = sent w ++ [input w] ∧ input w' = []
  else sent w' = sent w ∧ input w' = input w.
Proof.
  cbn zeta. unfold exec at 1 2 3 4. rewrite submit_unfold.
  pose proof (handleSubmit_sent (input w) (isLoading p) w) as H. cbn zeta in H.
  destruct (truthy (trim (input w)) && negb (isLoading p)); intuition.
Qed.

(** X2: while [isLoading] is clear, the send button and the submit handler
    agree: the button is enabled exactly when a submit sends the input, and
    disabled exactly when a submit sends nothing. *)
Theorem send_button_mirrors_submit (p : chatProps) (w : world) :
  isLoading p = false →
  let w' := exec (submit p) w in
  (getProp "disabled" (sendButton (input w)) = Some (PBool false)
   ↔ sent w' = sent w ++ [input w])
  ∧ (getProp "disabled" (sendButton (input w)) = Some (PBool true)
     ↔ sent w' = sent w).
Proof.
  intros Hl. cbn zeta. pose proof (submit_sent p w) as H. cbn zeta in H.
  rewrite Hl, andb_true_r in H.
  change (getProp "disabled" (sendButton (input w)))
    with (Some (PBool (negb (truthy (trim (input w)))))).
  assert (sent w ++ [input w] ≠ sent w) as Hne.
  { intros Heq%(f_equal length). rewrite length_app in Heq. cbn in Heq. lia. }
  destruct (truthy (trim (input w))); destruct H as [Hs _]; rewrite Hs; cbn.
  - split; split; intros; congruence.
  - split; split; intros; congruence.
Qed.

Lemma render_sent p w : sent (exec (render p) w) = sent w.
Proof.
  pose proof (render_effect p w) as H. cbn zeta in H. unfold sent.
  destruct (pendingInput p) as [text|];
    [destruct (depsChanged (pendingDeps w) (Some text))|];
    destruct H as (_ & -> & _); [|done..].
  rewrite sent_app. cbn. by rewrite app_nil_r.
Qed.

Lemma callbacks_calls (ts : list (callback * Z)) w :
  let k := foldr (λ t k, _ ← runCallback t.1; k) (mret tt) ts in
  calls (exec k w)
    = calls w ++ (if textareaAttached w then replicate (length ts) focus else [])
  ∧ input (exec k w) = input w ∧ timers (exec k w) = timers w
  ∧ textareaAttached (exec k w) = textareaAttached w
  ∧ pendingDeps (exec k w) = pendingDeps w.
Proof.
  cbn zeta. revert w. induction ts as [|[[] delay] ts IH]; intros w.
  { cbn. by destruct (textareaAttached w); rewrite ?app_nil_r. }
  rewrite callbacks_cons. cbn [fst].
  destruct (IH (exec (runCallback focusTextarea) w)) as (-> & -> & -> & -> & ->).
  unfold exec, runCallback, mbind, M_bind, get. cbn [fst snd].
  destruct (textareaAttached w) eqn:Ha; cbn; rewrite ?Ha; [|done].
  by rewrite <- app_assoc.
Qed.

Lemma runTimers_world w :
  calls (exec runTimers w)
    = calls w ++ (if textareaAttached w
                  then replicate (length (timers w)) focus else [])
  ∧ input (exec runTimers w) = input w
  ∧ timers (exec runTimers w) = []
  ∧ textareaAttached (exec runTimers w) = textareaAttached w
  ∧ pendingDeps (exec runTimers w) = pendingDeps w.
Proof.
  rewrite runTimers_unfold.
  apply (callbacks_calls (timers w) (exec clearTimers w)).
Qed.

Lemma sent_replicate_focus n : omap sentText (replicate n focus) = [].
Proof. induction n; [done|]. by cbn. Qed.

Lemma runTimers_sent w : sent (exec runTimers w) = sent w.
Proof.
  destruct (runTimers_world w) as (Hc & _). unfold sent. rewrite Hc, sent_app.
  destruct (textareaAttached w); cbn; by rewrite ?sent_replicate_focus, app_nil_r.
Qed.

(** The three things a key can do. *)
Lemma enter_key_cases key shiftKey p w :
  let w' := exec (step (KeyDown key shiftKey p)) w in
  w' = w
  ∨ (sent w' = sent w ∧ input w' = input w)
  ∨ (¬ blank (input w) ∧ sent w' = sent w ++ [input w] ∧ input w' = []).
Proof.
  cbn zeta. rewrite keyDown_unfold.
  destruct (bool_decide (key = lit "Enter") && negb shiftKey); [|by left].
  right.
  pose proof (handleSubmit_sent (input w) (isLoading p)
                (exec (perform preventDefault) w)) as H. cbn zeta in H.
  change (input (exec (perform preventDefault) w)) with (input w) in H.
  assert (sent (exec (perform preventDefault) w) = sent w) as Hp.
  { unfold sent. cbn. rewrite sent_app. cbn. by rewrite app_nil_r. }
  rewrite Hp in H.
  destruct (truthy (trim (input w))) eqn:Ht; cbn [andb] in H.
  - destruct (negb (isLoading p)); destruct H as (Hs & Hi & _).
    + right. split; [by apply truthy_trim_true|done].
    + by left.
  - left. by destruct H as (Hs & Hi & _).
Qed.

(** What an event adds to the texts sent: nothing, or one text that is not
    blank. *)
Lemma step_sent ev w :
  sent (exec (step ev) w) = sent w
  ∨ ∃ text, ¬ blank text ∧ sent (exec (step ev) w) = sent w ++ [text].
Proof.
  destruct ev as [p|p|key shiftKey p|value|].
  - left. apply render_sent.
  - pose proof (submit_sent p w) as H. cbn zeta in H. cbn [step].
    destruct (truthy (trim (input w))) eqn:Ht; cbn [andb] in H.
    + destruct (negb (isLoading p)); destruct H as [H _]; [right|by left].
      exists (input w). split; [by apply truthy_trim_true|done].
    + left. by destruct H.
  - destruct (enter_key_cases key shiftKey p w) as [H|[H|H]].
    + left. by rewrite H.
    + left. by destruct H.
    + right. destruct H as (Hb & H & _). eauto.
  - by left.
  - left. apply runTimers_sent.
Qed.

Lemma run_cons ev evs w :
  exec (run (ev :: evs)) w = exec (run evs) (exec (step ev) w).
Proof. reflexivity. Qed.


(** X3: whatever the sequence of passes, submits, keys, edits and timer
    runs, the component never hands a blank text to [onSendMessage]. *)
Theorem blank_text_is_never_sent (evs : list event) (w : world) :
  Forall (λ text, ¬ blank text) (sent w) →
  Forall (λ text, ¬ blank text) (sent (exec (run evs) w)).
Proof.
  revert w. induction evs as [|ev evs IH]; intros w Hw; [done|].
  rewrite run_cons. apply IH.
  destruct (step_sent ev w) as [->|(text & Hb & ->)]; [done|].
  apply Forall_app. split; [done|]. by constructor.
Qed.



(** ** Input recovery over a run *)

Lemma restored_app w (cs : list call) :
  length (omap (λ c, match c with onPendingInputConsumed => Some c | _ => None end)
               (calls w ++ cs))
  = (restored w
     + length (omap (λ c, match c with
                          | onPendingInputConsumed => Some c | _ => None end) cs))%nat.
Proof. unfold restored. by rewrite omap_app, length_app. Qed.

Lemma focused_app w (cs : list call) :
  length (omap (λ c, match c with focus => Some c | _ => None end) (calls w ++ cs))
  = (focused w
     + length (omap (λ c, match c with focus => Some c | _ => None end) cs))%nat.
Proof. unfold focused. by rewrite omap_app, length_app. Qed.

(** What a pass adds to the log and to the timer queue. *)
Lemma render_restored p w :
  let n := if depsChanged (pendingDeps w) (pendingInput p)
              && bool_decide (is_Some (pendingInput p)) then 1%nat else 0%nat in
  restored (exec (render p) w) = (restored w + n)%nat
  ∧ focused (exec (render p) w) = focused w
  ∧ length (timers (exec (render p) w)) = (length (timers w) + n)%nat.
Proof.
  cbn zeta. pose proof (render_effect p w) as H. cbn zeta in H.
  destruct (pendingInput p) as [text|].
  - rewrite bool_decide_eq_true_2, andb_true_r by eauto.
    destruct (depsChanged (pendingDeps w) (Some text));
      destruct H as (_ & Hc & Ht); unfold restored, focused;
      rewrite Hc, Ht, ?omap_app, ?length_app;
      cbn [omap list_omap length andb]; repeat split; lia.
  - rewrite bool_decide_eq_false_2, andb_false_r by (by inversion 1).
    destruct H as (_ & Hc & Ht). unfold restored, focused.
    rewrite Hc, Ht. lia.
Qed.

(** X5: over any run of passes, [onPendingInputConsumed] is called once for
    each pass whose [pendingInput] is a text that differs from the
    [pendingInput] of the pass before, and never otherwise; each such pass
    queues one timer.  A text left in the slot by the parent is therefore
    not restored a second time, and the same text is restored again only
    after the slot has held something else. *)
Theorem restorations_follow_slot_changes (ps : list chatProps) (w : world) :
  let w' := exec (renders ps) w in
  restored w' = (restored w + restorations (pendingDeps w) ps)%nat
  ∧ length (timers w')
    = (length (timers w) + restorations (pendingDeps w) ps)%nat
  ∧ focused w' = focused w.
Proof.
  cbn zeta. revert w. induction ps as [|p ps IH]; intros w.
  { cbn. unfold exec. cbn. lia. }
  rewrite renders_cons. destruct (IH (exec (render p) w)) as (-> & -> & ->).
  rewrite render_pendingDeps.
  destruct (render_restored p w) as (-> & -> & ->). cbn [restorations]. lia.
Qed.


(** ** Timers *)

Lemma focused_replicate n :
  length (omap (λ c, match c with focus => Some c | _ => None end)
               (replicate n focus)) = n.
Proof. induction n; [done|]. cbn. by f_equal. Qed.

Lemma restored_replicate n :
  length (omap (λ c, match c with onPendingInputConsumed => Some c | _ => None end)
               (replicate n focus)) = 0%nat.
Proof. induction n; [done|]. by cbn. Qed.

(** X7: draining the timer queue focuses the textarea once for every
    queued restoration when the textarea is mounted and not at all when it
    is not (the restoration happened with no conversation selected); the
    queue is empty afterwards, so draining it again changes nothing. *)
Theorem timers_focus_mounted_textarea (w : world) :
  let w' := exec runTimers w in
  focused w' = (focused w
                + if textareaAttached w then length (timers w) else 0)%nat
  ∧ timers w' = []
  ∧ input w' = input w
  ∧ exec runTimers w' = w'.
Proof.
  cbn zeta. destruct (runTimers_world w) as (Hc & Hi & Ht & Ha & Hd).
  split; [|split; [done|split; [done|]]].
  - unfold focused at 1. rewrite Hc, focused_app.
    destruct (textareaAttached w); cbn; by rewrite ?focused_replicate.
  - clear Hc Hi Ha Hd. rewrite runTimers_unfold, Ht.
    remember (exec runTimers w) as w' eqn:E. clear E.
    destruct w'. cbn in Ht. by subst.
Qed.

Lemma handleSubmit_counts inp loading w :
  let w' := exec (handleSubmit inp loading) w in
  restored w' = restored w ∧ focused w' = focused w ∧ timers w' = timers w.
Proof.
  cbn zeta. destruct (handleSubmit_timers inp loading w) as (Ht & _).
  pose proof (handleSubmit_sent inp loading w) as H. cbn zeta in H.
  unfold restored, focused.
  destruct (truthy (trim inp) && negb loading); destruct H as (_ & _ & ->);
    rewrite !omap_app, !length_app; cbn; repeat split; (lia || done).
Qed.

(** Focuses done and focuses still queued never outnumber the calls of
    [onPendingInputConsumed]. *)
Lemma step_focus_budget ev w :
  (focused w + length (timers w) ≤ restored w)%nat →
  (focused (exec (step ev) w) + length (timers (exec (step ev) w))
   ≤ restored (exec (step ev) w))%nat.
Proof.
  intros Hw. destruct ev as [p|p|key shiftKey p|value|].
  - cbn [step]. destruct (render_restored p w) as (-> & -> & ->). lia.
  - change (exec (step (Submit p)) w)
      with (exec (handleSubmit (input w) (isLoading p)) w).
    destruct (handleSubmit_counts (input w) (isLoading p) w) as (-> & -> & ->).
    done.
  - rewrite keyDown_unfold.
    destruct (bool_decide (key = lit "Enter") && negb shiftKey); [|done].
    destruct (handleSubmit_counts (input w) (isLoading p)
                (exec (perform preventDefault) w)) as (-> & -> & ->).
    unfold restored, focused in *. cbn. rewrite !omap_app, !length_app. cbn. lia.
  - done.
  - cbn [step]. destruct (runTimers_world w) as (Hc & _ & Ht & _).
    unfold restored, focused in *. rewrite Hc, Ht, !omap_app, !length_app.
    destruct (textareaAttached w); cbn;
      rewrite ?focused_replicate, ?restored_replicate; lia.
Qed.

(** X8: along any sequence of events the textarea is focused only on
    behalf of a restoration: the focuses done plus the focuses still queued
    never outnumber the calls of [onPendingInputConsumed]. *)
Theorem focus_only_follows_restoration (evs : list event) (w : world) :
  (focused w + length (timers w) ≤ restored w)%nat →
  let w' := exec (run evs) w in
  (focused w' + length (timers w') ≤ restored w')%nat.
Proof.
  cbn zeta. revert w. induction evs as [|ev evs IH]; intros w Hw; [done|].
  rewrite run_cons. by apply IH, step_focus_budget.
Qed.

(** ** Cells across passes *)

Lemma elementAt_Some j p e :
  elementAt j p = Some e ↔
  ∃ conv m, conversation p = Some conv ∧ messages conv !! j = Some m
            ∧ e = messageElement (isLoading p) (length (messages conv)) j m.
Proof.
  unfold elementAt, messagesOf. rewrite fmap_Some. split.
  - intros (m & Hm & ->). destruct (conversation p) as [conv|]; [|done].
    by exists conv, m.
  - intros (conv & m & Hc & Hm & ->). rewrite Hc. by exists m.
Qed.

Lemma elementAt_None j p :
  elementAt j p = None ↔ (length (messagesOf p) ≤ j)%nat.
Proof.
  unfold elementAt. rewrite fmap_None. apply lookup_ge_None.
Qed.

Lemma memoCells_keys j p inp :
  j ∈ (memoCells (ChatInterface (conversation p) (isLoading p) inp)).*1
  ↔ is_Some (elementAt j p).
Proof.
  rewrite memoCells_ChatInterface. unfold elementAt, messagesOf.
  destruct (conversation p) as [conv|]; cbn.
  - rewrite list_elem_of_fmap, fmap_is_Some. split.
    + intros ([k e] & -> & (i & m & [= -> ->] & Hm)%elem_of_lookup_imap). eauto.
    + intros [m Hm]. eexists (j, _). split; [done|].
      apply elem_of_lookup_imap. eauto.
  - split; [by intros ?%elem_of_nil|by intros [? ?]].
Qed.

Lemma render_cell_at j p e w :
  elementAt j p = Some e →
  let w' := exec (render p) w in
  if keeps (cells w !! j) e then
    cells w' !! j = cells w !! j ∧ invocationsOf j w' = invocationsOf j w
  else
    ∃ o, cells w' !! j = Some (freshCell e o)
         ∧ (nextRef w ≤ o < nextRef w')%nat
         ∧ invocationsOf j w' = S (invocationsOf j w).
Proof.
  intros (conv & m & Hc & Hm & ->)%elementAt_Some. by apply render_cell.
Qed.

Lemma render_absent j p w :
  elementAt j p = None →
  cells (exec (render p) w) !! j = None
  ∧ invocationsOf j (exec (render p) w) = invocationsOf j w.
Proof.
  intros Hnone. unfold invocationsOf at 1.
  rewrite render_cells, render_invocations.
  apply (reconcileChildren_absent (cells w)).
  rewrite memoCells_keys, Hnone. by intros [? ?].
Qed.

(** X9: after a pass the mounted cells are exactly the cells of the
    current messages: index [j] has a cell if and only if the conversation
    of the pass has a message at [j].  Cells of a longer, earlier message
    list are unmounted without their component being called. *)
Theorem mounted_cells_are_the_messages (p : chatProps) (w : world) (j : nat) :
  let w' := exec (render p) w in
  (is_Some (cells w' !! j) ↔ (j < length (messagesOf p))%nat)
  ∧ ((length (messagesOf p) ≤ j)%nat →
     cells w' !! j = None ∧ invocationsOf j w' = invocationsOf j w).
Proof.
  cbn zeta. split.
  - destruct (elementAt j p) as [e|] eqn:He.
    + assert (j < length (messagesOf p))%nat as Hlt.
      { apply lookup_lt_is_Some. unfold elementAt in He.
        by destruct (messagesOf p !! j). }
      pose proof (render_cell_at j p e w He) as H. cbn zeta in H.
      split; [done|]. intros _.
      destruct (keeps (cells w !! j) e) eqn:Hk.
      * destruct H as [-> _]. unfold keeps in Hk. by destruct (cells w !! j).
      * destruct H as (o & -> & _). eauto.
    + destruct (render_absent j p w He) as [-> _].
      apply elementAt_None in He. split; [by intros [? ?]|lia].
  - intros Hge%elementAt_None. by apply render_absent.
Qed.

(** After a pass, a cell agrees with the element of that pass on all that
    the comparators read. *)
Lemma render_remembers j p e w :
  elementAt j p = Some e →
  ∃ f, cells (exec (render p) w) !! j = Some f
       ∧ ∀ e', bailsOut (memoized f) e' = bailsOut e e'.
Proof.
  intros He. pose proof (render_cell_at j p e w He) as H. cbn zeta in H.
  destruct (keeps (cells w !! j) e) eqn:Hk.
  - destruct H as [-> _]. unfold keeps in Hk.
    destruct (cells w !! j) as [f|]; [|done]. exists f. split; [done|].
    intros e'. destruct (memoized f) as [c|q], e as [c1|p1]; try done.
    + cbn in Hk. by apply bool_decide_eq_true in Hk as ->.
    + cbn in Hk. rewrite areEqual_spec in Hk.
      apply negb_true_iff, orb_false_iff in Hk as [Hq Hp1].
      destruct e'; [done|]. cbn. by rewrite !areEqual_spec, Hq, Hp1.
  - destruct H as (o & -> & _). by eexists.
Qed.

(** The count of calls for index [j] over a pass that follows a pass. *)
Lemma pass_cost_at j p1 p2 w e1 e2 :
  elementAt j p1 = Some e1 → elementAt j p2 = Some e2 →
  let w1 := exec (render p1) w in
  let w2 := exec (render p2) w1 in
  (bailsOut e1 e2 = true → cells w2 !! j = cells w1 !! j)
  ∧ invocationsOf j w2
    = (invocationsOf j w1 + if bailsOut e1 e2 then 0 else 1)%nat.
Proof.
  intros He1 He2. cbn zeta.
  destruct (render_remembers j p1 e1 w He1) as (f & Hf & Hsame).
  pose proof (render_cell_at j p2 e2 (exec (render p1) w) He2) as H.
  cbn zeta in H. rewrite Hf in H. cbn [keeps] in H. rewrite Hsame in H.
  destruct (bailsOut e1 e2).
  - destruct H as [H ->]. split; [by rewrite Hf|lia].
  - destruct H as (o & _ & _ & ->). split; [done|lia].
Qed.

(** X10: in a pass that follows a pass, the component of the cell at index
    [j] is called, once, exactly when the comparator of the cell rejects
    the element the previous pass made for [j] and the element this pass
    makes for it; otherwise the cell keeps its element object.  What the
    cell remembers always agrees with the previous pass where the
    comparators look, also when its last render is older. *)
Theorem pass_calls_what_the_comparator_rejects (j : nat) (p1 p2 : chatProps)
    (e1 e2 : memo_element) (w : world) :
  elementAt j p1 = Some e1 → elementAt j p2 = Some e2 →
  let w1 := exec (render p1) w in
  let w2 := exec (render p2) w1 in
  if bailsOut e1 e2 then
    cells w2 !! j = cells w1 !! j ∧ invocationsOf j w2 = invocationsOf j w1
  else
    (∃ o, cells w2 !! j = Some (freshCell e2 o) ∧ (nextRef w1 ≤ o)%nat)
    ∧ invocationsOf j w2 = S (invocationsOf j w1).
Proof.
  intros He1 He2. cbn zeta.
  destruct (render_remembers j p1 e1 w He1) as (f & Hf & Hsame).
  pose proof (render_cell_at j p2 e2 (exec (render p1) w) He2) as H.
  cbn zeta in H. rewrite Hf in H. cbn [keeps] in H. rewrite Hsame in H.
  destruct (bailsOut e1 e2).
  - by rewrite Hf.
  - destruct H as (o & Hc & Ho & Hinv). split; [|done]. exists o.
    split; [done|lia].
Qed.

Lemma assistantAt_element j m p :
  assistantAt j m p →
  elementAt j p = Some (AssistantMessageEl {| msg := m; isActive := activeAt j p |}).
Proof.
  intros (conv & Hc & Hm & Hu). apply elementAt_Some. exists conv, m.
  rewrite messageElement_assistant by done. unfold activeAt. by rewrite Hc.
Qed.

(** X11: a pass always calls [AssistantMessage] for the active cell, once,
    whatever the cell held before, and the cell then holds the output for
    the message of this very pass in a new element object: while a turn
    streams, no update of its message is skipped. *)
Theorem active_cell_is_always_recomputed (j : nat) (m : message)
    (p : chatProps) (w : world) :
  assistantAt j m p → activeAt j p = true →
  let w' := exec (render p) w in
  let shown := {| msg := m; isActive := true |} in
  (∃ o, cells w' !! j =
          Some {| memoized := AssistantMessageEl shown;
                  output := {| ref := o; node := AssistantMessage shown |} |}
        ∧ (nextRef w ≤ o < nextRef w')%nat)
  ∧ invocationsOf j w' = S (invocationsOf j w).
Proof.
  intros Ha Hact. cbn zeta.
  pose proof (render_cell_at j p _ w (assistantAt_element j m p Ha)) as H.
  cbn zeta in H. rewrite Hact in H.
  assert (keeps (cells w !! j)
            (AssistantMessageEl {| msg := m; isActive := true |}) = false) as Hk.
  { unfold keeps. destruct (cells w !! j) as [f|]; [|done].
    destruct (memoized f); [done|]. cbn. rewrite areEqual_spec. cbn.
    by rewrite orb_true_r. }
  rewrite Hk in H. destruct H as (o & Hc & Ho & Hinv). split; [|done].
  by exists o.
Qed.

Lemma render_keeps_settled_cell j p w f q :
  settledAt j p → cells w !! j = Some f →
  memoized f = AssistantMessageEl q → isActive q = false →
  cells (exec (render p) w) !! j = Some f
  ∧ invocationsOf j (exec (render p) w) = invocationsOf j w.
Proof.
  intros [[m Ha] Hact] Hf Hq Hqa.
  pose proof (render_cell_at j p _ w (assistantAt_element j m p Ha)) as H.
  cbn zeta in H. rewrite Hf in H. cbn [keeps] in H. rewrite Hq in H.
  cbn [bailsOut] in H. rewrite areEqual_spec in H. cbn [isActive] in H.
  rewrite Hqa, Hact in H. exact H.
Qed.

(** X12: a cell that remembers an assistant message with [isActive] clear
    is frozen for as long as the passes hold a settled assistant message at
    its index: it keeps its element object and [AssistantMessage] is not
    called for it, also when the message at that index is replaced by
    another one; the cell then goes on showing the message it was last
    rendered with. *)
Theorem settled_cell_is_frozen (j : nat) (ps : list chatProps) (w : world)
    (f : fiber) (q : assistantProps) :
  cells w !! j = Some f → memoized f = AssistantMessageEl q →
  isActive q = false → Forall (settledAt j) ps →
  let w' := exec (renders ps) w in
  cells w' !! j = Some f ∧ invocationsOf j w' = invocationsOf j w.
Proof.
  intros Hf Hq Hqa Hps. cbn zeta. revert w Hf.
  induction Hps as [|p ps Hp _ IH]; intros w Hf; [done|].
  rewrite renders_cons.
  destruct (render_keeps_settled_cell j p w f q Hp Hf Hq Hqa) as [Hf' Hinv].
  destruct (IH (exec (render p) w) Hf') as [-> ->]. done.
Qed.

Lemma sameEntry_bailsOut loading n j m1 m2 :
  sameEntry m1 m2 →
  bailsOut (messageElement loading n j m1) (messageElement loading n j m2)
  = negb (loading && isLast j n && negb (isUser m2)).
Proof.
  intros [Hrole Hcontent]. unfold messageElement. rewrite <- Hrole.
  destruct (isUser m1) eqn:Hu; cbn.
  - rewrite andb_false_r. cbn. unfold shallowEqual.
    by rewrite bool_decide_eq_true_2 by auto.
  - rewrite areEqual_spec. cbn. by rewrite orb_diag, andb_true_r.
Qed.

(** X13: take a pass that follows a pass with the same loading flag and
    the same entries, where assistant entries may have changed in any way
    and user entries have kept their text.  Such a pass calls the component
    of the active assistant cell, once, and the component of no other cell:
    a streaming update costs one call, and a pass outside a generation
    costs none. *)
Theorem steady_pass_calls_only_the_active_cell (p1 p2 : chatProps)
    (w : world) (j : nat) :
  isLoading p1 = isLoading p2 →
  Forall2 sameEntry (messagesOf p1) (messagesOf p2) →
  let w1 := exec (render p1) w in
  let w2 := exec (render p2) w1 in
  invocationsOf j w2 =
  (invocationsOf j w1
   + if activeAt j p2
        && from_option (λ m, negb (isUser m)) false (messagesOf p2 !! j)
     then 1 else 0)%nat.
Proof.
  intros Hl Hms. cbn zeta.
  destruct (messagesOf p2 !! j) as [m2|] eqn:Hm2; cbn [from_option].
  - destruct (Forall2_lookup_r _ _ _ _ _ Hms Hm2) as (m1 & Hm1 & Hsame).
    pose proof (Forall2_length _ _ _ Hms) as Hlen.
    pose proof (pass_cost_at j p1 p2 w) as H.
    unfold elementAt in H. rewrite Hm1, Hm2 in H. cbn [fmap option_fmap option_map] in H.
    specialize (H _ _ eq_refl eq_refl).
    rewrite Hl, Hlen, sameEntry_bailsOut in H by done.
    unfold activeAt. fold (messagesOf p2).
    destruct (isLoading p2 && isLast j (length (messagesOf p2)) && negb (isUser m2));
      cbn [negb] in H; destruct H as [_ ->]; lia.
  - rewrite andb_false_r.
    assert (elementAt j p2 = None) as Hnone by (unfold elementAt; by rewrite Hm2).
    destruct (render_absent j p2 (exec (render p1) w) Hnone) as [_ ->]. lia.
Qed.

(** A reconciliation in which every cell is kept changes nothing. *)
Lemma reconcileChildren_idle cur els w :
  Forall (λ ke, keeps (cur !! ke.1) ke.2 = true) els →
  (reconcileChildren cur els w).2 = w
  ∧ ∀ k, (reconcileChildren cur els w).1 !! k
         = if decide (k ∈ els.*1) then cur !! k else None.
Proof.
  induction 1 as [|[key e] rest Hk _ IH].
  { split; [done|]. intros k. cbn. rewrite lookup_empty.
    by destruct (decide (k ∈ [])) as [?%elem_of_nil|]. }
  cbn [fst snd] in Hk. rewrite reconcileChildren_cons. cbn zeta.
  rewrite updateMemo_keeps by done. cbn [fst snd].
  destruct IH as [-> IH]. split; [done|]. intros k.
  unfold keeps in Hk. destruct (cur !! key) as [f|] eqn:Hf; [|done]. cbn.
  destruct (decide (key = k)) as [->|Hne].
  - rewrite lookup_insert_eq, decide_True; [done|]. by left.
  - rewrite lookup_insert_ne, IH by done.
    destruct (decide (k ∈ rest.*1)) as [Hin|Hout].
    + rewrite decide_True; [done|]. by right.
    + rewrite decide_False; [done|]. intros [?|?]%elem_of_cons; congruence.
Qed.

Lemma render_settledFor p w : settledFor p (exec (render p) w).
Proof.
  intros j. destruct (elementAt j p) as [e|] eqn:He.
  - by apply render_remembers.
  - by apply render_absent.
Qed.

Lemma bailsOut_idle loading n j m :
  loading = false →
  bailsOut (messageElement loading n j m) (messageElement loading n j m) = true.
Proof.
  intros ->. rewrite sameEntry_bailsOut by done. done.
Qed.

Lemma idle_pass p w :
  isLoading p = false → settledFor p w →
  cells (exec (render p) w) = cells w
  ∧ invocations (exec (render p) w) = invocations w
  ∧ nextRef (exec (render p) w) = nextRef w.
Proof.
  intros Hl Hw.
  rewrite render_cells, render_invocations, render_nextRef.
  set (els := memoCells (ChatInterface (conversation p) (isLoading p) (input w))).
  destruct (reconcileChildren_idle (cells w) els w) as [Hworld Hcells].
  { apply Forall_forall. intros [j e] Hin. cbn [fst snd].
    assert (elementAt j p = Some e) as He.
    { subst els. rewrite memoCells_ChatInterface in Hin.
      apply elementAt_Some. destruct (conversation p) as [conv|].
      - apply elem_of_lookup_imap in Hin as (i & m & [= -> ->] & Hm). eauto.
      - by apply elem_of_nil in Hin. }
    specialize (Hw j). rewrite He in Hw. destruct Hw as (f & -> & Hsame).
    cbn [keeps]. rewrite Hsame.
    apply elementAt_Some in He as (conv & m & _ & _ & ->).
    by apply bailsOut_idle. }
  rewrite Hworld. split; [|done]. apply map_eq. intros k. rewrite Hcells.
  destruct (decide (k ∈ els.*1)) as [Hin|Hout]; [done|].
  subst els. rewrite memoCells_keys in Hout. specialize (Hw k).
  destruct (elementAt k p); [|done]. exfalso. eauto.
Qed.

(** X14: outside a generation, typing costs no message render.  After a
    pass with [isLoading] clear, any number of keystrokes, each an
    [onChange] followed by a pass with the same props, calls neither
    [UserMessage] nor [AssistantMessage], allocates no element object and
    leaves every cell as it was. *)
Theorem typing_renders_no_message (p : chatProps) (values : list jsstring)
    (w : world) :
  isLoading p = false →
  let w1 := exec (render p) w in
  let w2 := exec (run (flat_map (λ value, [Change value; Pass p]) values)) w1 in
  invocations w2 = invocations w1
  ∧ cells w2 = cells w1
  ∧ nextRef w2 = nextRef w1.
Proof.
  intros Hl. cbn zeta.
  pose proof (render_settledFor p w) as Hw1. revert Hw1.
  generalize (exec (render p) w). clear w.
  induction values as [|value values IH]; intros w Hw; [done|].
  cbn [flat_map app]. rewrite !run_cons. cbn [step].
  set (w0 := exec (setInput value) w).
  assert (settledFor p w0) as Hw0 by exact Hw.
  destruct (idle_pass p w0 Hl Hw0) as (Hc & Hi & Hn).
  destruct (IH (exec (render p) w0)) as (-> & -> & ->).
  { intros j. specialize (Hw0 j). by rewrite Hc. }
  by rewrite Hc, Hi, Hn.
Qed.

(** X15: a message that a pass has at an index where the pass before had
    none is mounted by one call of its component, and its cell shows the
    message of this pass. *)
Theorem new_message_is_mounted_once (j : nat) (p1 p2 : chatProps)
    (e : memo_element) (w : world) :
  elementAt j p1 = None → elementAt j p2 = Some e →
  let w1 := exec (render p1) w in
  let w2 := exec (render p2) w1 in
  cells w1 !! j = None
  ∧ (∃ o, cells w2 !! j = Some {| memoized := e;
                                  output := {| ref := o; node := body e |} |}
          ∧ (nextRef w1 ≤ o < nextRef w2)%nat)
  ∧ invocationsOf j w2 = S (invocationsOf j w1).
Proof.
  intros H1 H2. cbn zeta.
  destruct (render_absent j p1 w H1) as [Hnone _]. split; [done|].
  pose proof (render_cell_at j p2 e (exec (render p1) w) H2) as H.
  cbn zeta in H. rewrite Hnone in H. cbn [keeps] in H.
  destruct H as (o & Hc & Ho & Hinv). split; [|done]. by exists o.
Qed.

(** ** Entries with missing fields *)

(** X16: an assistant message without a [loading] field, as one loaded
    from storage, shows no stage indicator: its cell displays the label
    followed by what the guards on the stage payloads leave, in stage
    order, that is the element of each payload that is there and truthy
    and nothing for an absent payload or a falsy one such as an empty final
    text (a falsy value that React displays shows as text).  Without a
    [metadata] field, [Stage2] is handed its rankings with neither a
    label-to-model mapping nor aggregate rankings. *)
Theorem entry_without_optional_fields (m : message) :
  (loading m = None →
     displayed (assistantChildren m)
       = assistantLabel
         :: stageChild First m ++ stageChild Second m ++ stageChild Third m
     ∧ ∀ s, stageIndicator s ∉ displayed (assistantChildren m))
  ∧ stageChild First m
    = match stage1 m with
      | Some x => match guard x with
                  | Truthy => [Stage1El x]
                  | LeftOut => []
                  | Displayed text => [Text text]
                  end
      | None => []
      end
  ∧ stageChild Second m
    = match stage2 m with
      | Some rankings => [Stage2El rankings (metadata m ≫= label_to_model)
                                   (metadata m ≫= aggregate_rankings)]
      | None => []
      end
  ∧ stageChild Third m
    = match stage3 m with
      | Some x => match guard x with
                  | Truthy => [Stage3El x]
                  | LeftOut => []
                  | Displayed text => [Text text]
                  end
      | None => []
      end
  ∧ (metadata m = None →
     stageData Second m = (λ rankings, Stage2El rankings None None) <$> stage2 m).
Proof.
  assert (stageChild First m
          = match stage1 m with
            | Some x => match guard x with
                        | Truthy => [Stage1El x]
                        | LeftOut => []
                        | Displayed text => [Text text]
                        end
            | None => []
            end) as H1.
  { unfold stageChild. cbn. unfold truthyData, falsyText.
    destruct (stage1 m) as [x|]; [by destruct (guard x)|done]. }
  assert (stageChild Second m
          = match stage2 m with
            | Some rankings => [Stage2El rankings (metadata m ≫= label_to_model)
                                         (metadata m ≫= aggregate_rankings)]
            | None => []
            end) as H2.
  { unfold stageChild. cbn. by destruct (stage2 m). }
  assert (stageChild Third m
          = match stage3 m with
            | Some x => match guard x with
                        | Truthy => [Stage3El x]
                        | LeftOut => []
                        | Displayed text => [Text text]
                        end
            | None => []
            end) as H3.
  { unfold stageChild. cbn. unfold truthyData, falsyText.
    destruct (stage3 m) as [x|]; [by destruct (guard x)|done]. }
  split; [|split; [done|split; [done|split; [done|]]]].
  - intros Hl.
    assert (displayed (assistantChildren m)
            = assistantLabel
              :: stageChild First m ++ stageChild Second m ++ stageChild Third m)
      as Hshown.
    { rewrite H1, H2, H3. unfold assistantChildren, loadingFlag, whenTruthy.
      rewrite Hl. cbn.
      destruct (stage1 m) as [x1|]; try destruct (guard x1);
        destruct (stage2 m) as [x2|];
        destruct (stage3 m) as [x3|]; try destruct (guard x3); reflexivity. }
    split; [done|]. intros s. rewrite Hshown, H1, H2, H3.
    destruct (stage1 m) as [x1|]; try destruct (guard x1);
      destruct (stage2 m) as [x2|];
      destruct (stage3 m) as [x3|]; try destruct (guard x3); cbn;
      intros Hin; destruct s;
      repeat (apply elem_of_cons in Hin as [Hin|Hin]; [discriminate Hin|]);
      by apply elem_of_nil in Hin.
  - intros Hm. cbn. unfold stage2Element. rewrite Hm. by destruct (stage2 m).
Qed.

(** ** The wiring of the tree *)

Lemma handlers_of_cells (f : nat → message → vnode) (ms : list message) :
  (∀ i m, wiresOfNode (f i m) = []) →
  flat_map wiresOfNode (imap f ms) = [].
Proof.
  revert f. induction ms as [|m ms IH]; intros f Hf; [done|].
  cbn [imap flat_map]. rewrite Hf. cbn [app]. apply IH. intros i x. apply Hf.
Qed.

Lemma handlers_of_transcript loading (ms : list message) :
  flat_map wiresOfNode (nodes (transcript loading ms)) = [].
Proof.
  rewrite nodes_transcript. destruct ms as [|m ms]; [done|].
  apply handlers_of_cells. intros i x. by rewrite messageCell_element.
Qed.

Lemma attached_messagesEnd conv loading inp :
  attached messagesEndRef (ChatInterface conv loading inp)
  = bool_decide (is_Some conv).
Proof.
  unfold attached. destruct conv as [c|]; [|done].
  rewrite nodes_ChatInterface_Some, !existsb_app. cbn. by rewrite !orb_true_r.
Qed.

(** X17: the tree wires handlers only when a conversation is selected:
    [onSubmit] on the form to [handleSubmit], [onChange] and [onKeyDown] on
    the textarea to the input setter and to [handleKeyDown], and, exactly
    while [isLoading] is set, [onClick] on the stop button to
    [onStopGeneration].  The send button carries no handler of its own: it
    is the form's submit button, whereas the stop button is a plain button
    that does not submit the form.  Without a conversation the tree wires
    no handler and attaches neither ref, so nothing can be typed, sent,
    stopped, focused or scrolled to. *)
Theorem tree_wires_handlers (conv : option conversation_t) (loading : bool)
    (inp : jsstring) :
  let tree := ChatInterface conv loading inp in
  handlersOf tree
    = match conv with
      | Some _ =>
          [("form", "input-form", "onSubmit", HandleSubmit);
           ("textarea", "message-input", "onChange", HandleChange);
           ("textarea", "message-input", "onKeyDown", HandleKeyDown)]%string
          ++ (if loading
              then [("button", "stop-button", "onClick", OnStopGeneration)%string]
              else [])
      | None => []
      end
  ∧ getProp "type" (sendButton inp) = Some (PString "submit")
  ∧ getProp "type" stopButton = Some (PString "button")
  ∧ attached textareaRef tree = bool_decide (is_Some conv)
  ∧ attached messagesEndRef tree = bool_decide (is_Some conv).
Proof.
  cbn zeta.
  split; [|split; [done|split; [done|split;
    [apply attached_textarea|apply attached_messagesEnd]]]].
  unfold handlersOf. destruct conv as [c|]; [|done].
  rewrite nodes_ChatInterface_Some, !flat_map_app, handlers_of_transcript.
  by destruct loading.
Qed.

(** ** Auto-scroll *)

Lemma scrollPass_scrolls id p inp s :
  scrolls (scrollPass id p inp s) =
  (scrolls s
   + if scrollDepsChanged (lastDeps s)
          {| conversationRef := id; loadingDep := isLoading p |}
        && bool_decide (is_Some (conversation p))
     then 1 else 0)%nat.
Proof.
  unfold scrollPass. cbn [scrolls]. rewrite attached_messagesEnd.
  destruct (scrollDepsChanged _ _), (bool_decide _); cbn [andb]; lia.
Qed.

(** X18: after a pass, [scrollIntoView] is called exactly when a
    conversation is selected and the conversation object or [isLoading]
    differs from the pass before.  A pass that keeps both, such as a
    keystroke, a change of [pendingInput] or a change made to the
    conversation object in place, never scrolls, and no pass scrolls while
    no conversation is selected. *)
Theorem scroll_follows_conversation_and_loading (id1 id2 : option nat)
    (p1 p2 : chatProps) (inp1 inp2 : jsstring) (s : scroller) :
  let s1 := scrollPass id1 p1 inp1 s in
  let s2 := scrollPass id2 p2 inp2 s1 in
  scrolls s2 =
  (scrolls s1
   + if (negb (bool_decide (id1 = id2))
         || negb (Bool.eqb (isLoading p1) (isLoading p2)))
        && bool_decide (is_Some (conversation p2))
     then 1 else 0)%nat.
Proof.
  cbn zeta. by rewrite (scrollPass_scrolls id2 p2 inp2).
Qed.

End ChatInterface.

(** * The statements on sample scenarios *)

Example trim_strips_both_ends : trim (lit "  a b  ") = lit "a b".
Proof. reflexivity. Qed.

Example trim_strips_unicode_spaces :
  trim [0xFEFF; 0x3000; 0x2028; 0x68; 0x69; 0x0D; 0x0A] = lit "hi".
Proof. reflexivity. Qed.

(** U+200B, the zero-width space, is not stripped by [trim]. *)
Example trim_keeps_zero_width_space : trim [0x200B] = [0x200B].
Proof. reflexivity. Qed.

Example streaming_cells :
  memoCells (ChatInterface (Responses := unit) (Synthesis := unit)
               (Some {| messages := [userEntry (lit "Hi"); startedEntry] |})
               true (lit ""))
  = [(0%nat, UserMessageEl (lit "Hi"));
     (1%nat, AssistantMessageEl {| msg := startedEntry; isActive := true |})].
Proof. reflexivity. Qed.

(** Scenario B: once the generation has started the form offers the stop
    button. *)
Example streaming_form :
  inputForm (Responses := unit) (Synthesis := unit) true (lit "")
  = Host "form" [className "input-form"; attr "onSubmit" (PHandler HandleSubmit)]
      [textarea true (lit ""); stopButton].
Proof. reflexivity. Qed.

(** Two passes over [user, assistant]: streaming, then settled.  The
    second pass recomputes the assistant cell, since it was active in the
    first. *)
Lemma assistant_cell_recomputes_iff_active_witness :
  let p1 := passOf (Responses := unit) (Synthesis := unit)
              [userEntry (lit "What is 2+2?"); startedEntry] true None in
  let p2 := passOf [userEntry (lit "What is 2+2?"); startedEntry] false None in
  let w1 := exec (render p1) mountWorld in
  let w2 := exec (render p2) w1 in
  activeAt 1 p1 = true ∧ activeAt 1 p2 = false
  ∧ invocationsOf 1 w2 = S (invocationsOf 1 w1)
  ∧ (ref ∘ output <$> cells w2 !! 1%nat) ≠ (ref ∘ output <$> cells w1 !! 1%nat).
Proof.
  cbn zeta.
  destruct (assistant_cell_recomputes_iff_active 1
              (passOf [userEntry (lit "What is 2+2?"); startedEntry] true None)
              (passOf [userEntry (lit "What is 2+2?"); startedEntry] false None)
              (startedEntry (Responses := unit) (Synthesis := unit))
              startedEntry mountWorld)
    as (f1 & prev & Hf1 & _ & _ & _ & Hcase).
  - apply mountWorld_coherent.
  - eexists. repeat split; reflexivity.
  - eexists. repeat split; reflexivity.
  - change (activeAt 1 (passOf [userEntry (lit "What is 2+2?"); startedEntry]
                          true None)) with true in Hcase.
    cbn [orb] in Hcase. destruct Hcase as (o & Hf2 & Ho & Hinv).
    split; [reflexivity|]. split; [reflexivity|]. split; [exact Hinv|].
    rewrite Hf1, Hf2. cbn. congruence.
Defined.

(** Index 1 of [user, assistant] while loading: the last message, an
    assistant message, is the active one. *)
Lemma cells_follow_messages_witness :
  let conv := {| messages := [userEntry (Responses := unit) (Synthesis := unit)
                                (lit "What is 2+2?"); startedEntry] |} in
  let tree := ChatInterface (Some conv) true (lit "") in
  messages conv !! 1%nat = Some startedEntry
  ∧ length (memoCells tree) = 2%nat
  ∧ ∃ e, memoCells tree !! 1%nat = Some (1%nat, e)
         ∧ shows e startedEntry ∧ activeFlag e = true.
Proof.
  cbn zeta. split; [reflexivity|].
  exact (cells_follow_messages
           {| messages := [userEntry (lit "What is 2+2?"); startedEntry] |}
           true (lit "") 1 startedEntry eq_refl).
Defined.

(** Scenario C: stage-1 data and a stage-2 loading flag. *)
Lemma assistant_cell_stages_witness :
  let m := {| role := lit "assistant"; content := [];
              stage1 := Some [lit "first"; lit "second"; lit "third"];
              stage2 := None; stage3 := @None jsstring;
              loading := Some {| Loading.stage1 := false;
                                 Loading.stage2 := true;
                                 Loading.stage3 := false |};
              metadata := None |} in
  ∃ children,
    AssistantMessage {| msg := m; isActive := true |}
      = el "div" "message-group" [el "div" "assistant-message" children]
    ∧ displayed children
      = [assistantLabel;
         Stage1El [lit "first"; lit "second"; lit "third"];
         stage2Loading].
Proof.
  cbn zeta.
  destruct (assistant_cell_stages
    {| msg := {| role := lit "assistant"; content := [];
                 stage1 := Some [lit "first"; lit "second"; lit "third"];
                 stage2 := None; stage3 := @None jsstring;
                 loading := Some {| Loading.stage1 := false;
                                    Loading.stage2 := true;
                                    Loading.stage3 := false |};
                 metadata := None |};
       isActive := true |}) as [(children & Heq & Hshown) _].
  exists children. split; [exact Heq|]. rewrite Hshown. reflexivity.
Defined.

(** C3, as stated, fails: a final text that is there but empty is not
    rendered, since [msg.stage3 && ...] tests it for truthiness. *)
Lemma empty_final_text_is_not_rendered :
  let m := {| role := lit "assistant"; content := [];
              stage1 := @None (list jsstring); stage2 := None;
              stage3 := Some (lit "");
              loading := None; metadata := None |} in
  stage3 m = Some []
  ∧ AssistantMessage {| msg := m; isActive := false |}
    = el "div" "message-group" [
        el "div" "assistant-message" [
          assistantLabel; Nothing; Nothing; Nothing; Nothing; Nothing; Nothing]]
  ∧ displayed (assistantChildren m) = [assistantLabel]
  ∧ ¬ (∀ x, stage3 m = Some x → Stage3El x ∈ displayed (assistantChildren m)).
Proof.
  cbn zeta. split; [reflexivity|]. split; [reflexivity|]. split; [reflexivity|].
  intros H. specialize (H [] eq_refl).
  change (Stage3El (Responses := list jsstring) (Synthesis := jsstring) []
            ∈ [assistantLabel]) in H.
  apply elem_of_cons in H as [H|H]; [discriminate H|by apply elem_of_nil in H].
Qed.

(** Scenario B, continued over three passes: the user cell at index 0 is
    computed in the first pass only. *)
Lemma user_cell_is_computed_once_witness :
  let question := lit "What is 2+2?" in
  let p0 := passOf (Responses := unit) (Synthesis := unit)
              [userEntry question; startedEntry] true None in
  let ps := [passOf [userEntry question; startedEntry] false None;
             passOf [userEntry question; startedEntry; userEntry (lit "next")]
                    false (Some (lit "next"))] in
  let w0 := exec (render p0) mountWorld in
  let w' := exec (renders ps) w0 in
  cells w' !! 0%nat = cells w0 !! 0%nat
  ∧ invocationsOf 0 w' = invocationsOf 0 w0
  ∧ (invocationsOf 0 w' ≤ 1)%nat.
Proof.
  cbn zeta.
  destruct (user_cell_is_computed_once 0 (lit "What is 2+2?")
    (passOf (Responses := unit) (Synthesis := unit)
       [userEntry (lit "What is 2+2?"); startedEntry] true None)
    [passOf [userEntry (lit "What is 2+2?"); startedEntry] false None;
     passOf [userEntry (lit "What is 2+2?"); startedEntry; userEntry (lit "next")]
            false (Some (lit "next"))]
    mountWorld)
    as (f & Hf0 & _ & _ & Hf' & Hinv & Hle).
  - apply mountWorld_coherent.
  - eexists _, _. repeat split; reflexivity.
  - repeat constructor; eexists _, _; repeat split; reflexivity.
  - rewrite Hf0, Hf', Hinv. split; [reflexivity|]. split; [reflexivity|].
    exact Hle.
Defined.

(** Scenario D: the cancelled text replaces what was typed meanwhile. *)
Lemma pending_input_is_restored_once_witness :
  let text := lit "Explain recursion" in
  let p := passOf (Responses := unit) (Synthesis := unit)
             [userEntry text; startedEntry] false (Some text) in
  let w1 := exec (render p) (typed (lit "something else")) in
  input w1 = text
  ∧ calls w1 = [onPendingInputConsumed]
  ∧ timers w1 = [(focusTextarea, 0%Z)]
  ∧ calls (exec runTimers w1) = [onPendingInputConsumed; focus].
Proof.
  cbn zeta.
  destruct (pending_input_is_restored_once
    (passOf (Responses := unit) (Synthesis := unit)
       [userEntry (lit "Explain recursion"); startedEntry] false
       (Some (lit "Explain recursion")))
    (typed (lit "something else")) (lit "Explain recursion"))
    as (Hi & Hc & Ht & Ha & Hrun & _).
  - reflexivity.
  - discriminate.
  - destruct (Hrun eq_refl) as (Hfocus & _ & _).
    split; [exact Hi|]. split; [exact Hc|]. split; [exact Ht|].
    rewrite Hfocus, Ha, Hc. reflexivity.
Defined.

(** A submit attempt during a generation. *)
Lemma submit_while_loading_is_ignored_witness :
  let p := passOf (Responses := unit) (Synthesis := unit)
             [userEntry (lit "What is 2+2?"); startedEntry] true None in
  let w := typed (lit "another question") in
  isLoading p = true
  ∧ input (exec (submit p) w) = lit "another question"
  ∧ calls (exec (submit p) w) = [preventDefault].
Proof.
  cbn zeta. split; [reflexivity|].
  exact (proj1 (submit_while_loading_is_ignored
    (passOf (Responses := unit) (Synthesis := unit)
       [userEntry (lit "What is 2+2?"); startedEntry] true None)
    (typed (lit "another question")) (lit "Enter") false eq_refl)).
Defined.

(** Scenario E: the mapping knows "A".."E", a ranking names "F". *)
Lemma unresolved_label_is_shown_raw_witness :
  let mapping : gmap jsstring jsstring :=
    list_to_map [(lit "A", lit "alpha"); (lit "B", lit "beta");
                 (lit "C", lit "gamma"); (lit "D", lit "delta");
                 (lit "E", lit "epsilon")] in
  let r := {| ranker := lit "alpha"; order := [lit "B"; lit "F"; lit "C"] |} in
  let m := assistantEntry (Responses := unit) (Synthesis := unit) None (Some [r])
             (Some {| label_to_model := Some mapping;
                      aggregate_rankings := None |}) in
  mapping !! lit "F" = None
  ∧ ∃ fragment,
      stage2Fragment m = Some fragment
      ∧ rankingBlock (Some mapping) r ∈ nodes fragment
      ∧ texts (rankingBlock (Responses := unit) (Synthesis := unit)
                 (Some mapping) r)
        = [lit "alpha"; lit "beta"; lit "F"; lit "gamma"].
Proof.
  cbn zeta. split; [reflexivity|].
  destruct (unresolved_label_is_shown_raw
    (assistantEntry (Responses := unit) (Synthesis := unit) None
       (Some [{| ranker := lit "alpha"; order := [lit "B"; lit "F"; lit "C"] |}])
       (Some {| label_to_model :=
                  Some (list_to_map
                          [(lit "A", lit "alpha"); (lit "B", lit "beta");
                           (lit "C", lit "gamma"); (lit "D", lit "delta");
                           (lit "E", lit "epsilon")]);
                aggregate_rankings := None |}))
    [{| ranker := lit "alpha"; order := [lit "B"; lit "F"; lit "C"] |}]
    {| ranker := lit "alpha"; order := [lit "B"; lit "F"; lit "C"] |}
    1 (lit "F"))
    as (_ & fragment & Hfrag & Hblock & _ & _).
  - reflexivity.
  - apply list_elem_of_here.
  - reflexivity.
  - reflexivity.
  - exists fragment. split; [exact Hfrag|]. split; [exact Hblock|]. reflexivity.
Defined.

(** Scenario A, and the state before any conversation is selected. *)
Lemma placeholders_without_cells_witness :
  let none := {| conversation := @None (@conversation_t unit unit);
                 isLoading := false; pendingInput := None |} in
  let empty := passOf (Responses := unit) (Synthesis := unit) [] false None in
  ChatInterface (conversation none) false (lit "")
    = el "div" "chat-interface" [welcomePlaceholder]
  ∧ startPlaceholder ∈ nodes (ChatInterface (conversation empty) false (lit ""))
  ∧ memoCells (ChatInterface (conversation empty) false (lit "")) = []
  ∧ cells (exec (render empty) mountWorld) = ∅.
Proof.
  cbn zeta.
  destruct (placeholders_without_cells
    {| conversation := @None (@conversation_t unit unit);
       isLoading := false; pendingInput := None |} mountWorld)
    as (Hnone & _).
  destruct (placeholders_without_cells
    (passOf (Responses := unit) (Synthesis := unit) [] false None) mountWorld)
    as (_ & Hempty & _ & Hpass).
  destruct (Hnone eq_refl) as (Htree & _).
  destruct (Hempty {| messages := [] |} eq_refl eq_refl) as (Hstart & _ & Hcells).
  destruct Hpass as (Hmounted & _).
  { right. by eexists. }
  split; [exact Htree|]. split; [exact Hstart|]. split; [exact Hcells|].
  exact Hmounted.
Defined.

(** A streaming conversation: the indicator follows the two cells. *)
Lemma loading_indicator_follows_cells_witness :
  let conv := {| messages := [userEntry (Responses := unit) (Synthesis := unit)
                                (lit "What is 2+2?"); startedEntry] |} in
  let tree := ChatInterface (Some conv) true (lit "") in
  ∃ before after,
    nodes tree = before ++ nodes loadingIndicator ++ after
    ∧ memoCells tree = omap cellOf before
    ∧ length (memoCells tree) = 2%nat.
Proof.
  cbn zeta.
  destruct (loading_indicator_follows_cells
    {| messages := [userEntry (Responses := unit) (Synthesis := unit)
                      (lit "What is 2+2?"); startedEntry] |} true (lit ""))
    as (Hset & _).
  destruct (Hset eq_refl) as (before & after & Hnodes & Hcells & _).
  exists before, after. split; [exact Hnodes|]. split; [exact Hcells|].
  reflexivity.
Defined.

(** C9, as stated, fails: with the loading flag set and no conversation
    selected the component returns the welcome placeholder alone. *)
Lemma loading_without_conversation_shows_no_indicator :
  ¬ ∀ (conversation : option (@conversation_t unit unit)) (isLoading : bool)
      (input : jsstring),
      isLoading = true →
      loadingIndicator ∈ nodes (ChatInterface conversation isLoading input).
Proof.
  intros H. exact (indicator_needs_conversation true (lit "")
                     (H None true (lit "") eq_refl)).
Qed.

(** Blank input made of a space, a tab, a no-break space and a line feed
    is not sent; [" hi "] is sent untrimmed. *)
Lemma submit_sends_exactly_nonblank_input_witness :
  let p := passOf (Responses := unit) (Synthesis := unit) [] false None in
  let spaces : jsstring := [0x20; 0x09; 0xA0; 0x0A] in
  (blank spaces
   ∧ calls (exec (submit p) (typed spaces)) = [preventDefault]
   ∧ input (exec (submit p) (typed spaces)) = spaces)
  ∧ (¬ blank (lit " hi ")
     ∧ calls (exec (submit p) (typed (lit " hi ")))
       = [preventDefault; onSendMessage (lit " hi ")]
     ∧ input (exec (submit p) (typed (lit " hi "))) = []).
Proof.
  cbn zeta.
  assert (blank [0x20; 0x09; 0xA0; 0x0A]) as Hblank by (repeat constructor).
  assert (¬ blank (lit " hi ")) as Hsome by (by apply truthy_trim_true).
  destruct (submit_sends_exactly_nonblank_input
    (passOf (Responses := unit) (Synthesis := unit) [] false None)
    (typed [0x20; 0x09; 0xA0; 0x0A])) as (Hb & _).
  destruct (submit_sends_exactly_nonblank_input
    (passOf (Responses := unit) (Synthesis := unit) [] false None)
    (typed (lit " hi "))) as (_ & Hs & _).
  destruct (Hb Hblank) as (Hi & Hc & _).
  destruct (Hs Hsome eq_refl) as (Hc' & Hi' & _).
  split.
  - split; [exact Hblank|]. split; [exact Hc | exact Hi].
  - split; [exact Hsome|]. split; [exact Hc' | exact Hi'].
Defined.

(** * The further statements on sample scenarios *)

(** Enter sends what was typed; Shift+Enter is left to the textarea. *)
Lemma enter_key_sends_like_submit_witness :
  let p := passOf (Responses := unit) (Synthesis := unit) [] false None in
  let w := typed (lit "hello") in
  sent (exec (step (KeyDown (lit "Enter") false p)) w) = [lit "hello"]
  ∧ input (exec (step (KeyDown (lit "Enter") false p)) w) = []
  ∧ exec (step (KeyDown (lit "Enter") true p)) w = w.
Proof.
  cbn zeta.
  destruct (enter_key_sends_like_submit (lit "Enter") false
              (passOf (Responses := unit) (Synthesis := unit) [] false None)
              (typed (lit "hello"))) as (Hsend & _).
  destruct (enter_key_sends_like_submit (lit "Enter") true
              (passOf (Responses := unit) (Synthesis := unit) [] false None)
              (typed (lit "hello"))) as (_ & Hshift & _).
  destruct (Hsend eq_refl eq_refl) as (Hs & Hi & _).
  - by apply truthy_trim_true.
  - reflexivity.
  - split; [exact Hs|]. split; [exact Hi|]. apply Hshift. by right.
Defined.

Lemma send_button_mirrors_submit_witness :
  let p := passOf (Responses := unit) (Synthesis := unit) [] false None in
  let w := typed (lit "hi") in
  getProp "disabled" (sendButton (Responses := unit) (Synthesis := unit)
                        (input w)) = Some (PBool false)
  ∧ sent (exec (submit p) w) = [lit "hi"].
Proof.
  cbn zeta. split; [reflexivity|].
  apply (send_button_mirrors_submit
           (passOf (Responses := unit) (Synthesis := unit) [] false None)
           (typed (lit "hi")) eq_refl).
  reflexivity.
Defined.

(** Blank input is submitted, then "ok" is typed and submitted twice. *)
Lemma blank_text_is_never_sent_witness :
  let p := passOf (Responses := unit) (Synthesis := unit) [] false None in
  let evs := [Change [0x20; 0x0A]; Submit p; Change (lit "ok"); Submit p;
              KeyDown (lit "Enter") false p; Tick] in
  sent (exec (run evs) mountWorld) = [lit "ok"]
  ∧ Forall (λ text, ¬ blank text) (sent (exec (run evs) mountWorld)).
Proof.
  cbn zeta. split; [reflexivity|].
  apply (blank_text_is_never_sent
           [Change [0x20; 0x0A];
            Submit (passOf (Responses := unit) (Synthesis := unit) [] false None);
            Change (lit "ok"); Submit (passOf [] false None);
            KeyDown (lit "Enter") false (passOf [] false None); Tick]
           mountWorld).
  constructor.
Defined.



(** One restoration, one focus, however often the timers are drained. *)
Lemma focus_only_follows_restoration_witness :
  let p := passOf (Responses := unit) (Synthesis := unit)
             [userEntry (lit "Hi"); startedEntry] false (Some (lit "Hi")) in
  let w' := exec (run [Pass p; Tick; Pass p; Change (lit "Hi!"); Tick])
                 mountWorld in
  (focused w' + length (timers w') ≤ restored w')%nat.
Proof.
  cbn zeta.
  apply (focus_only_follows_restoration
           [Pass (passOf (Responses := unit) (Synthesis := unit)
                    [userEntry (lit "Hi"); startedEntry] false (Some (lit "Hi")));
            Tick;
            Pass (passOf [userEntry (lit "Hi"); startedEntry] false
                    (Some (lit "Hi")));
            Change (lit "Hi!"); Tick]
           mountWorld).
  cbn. lia.
Defined.

(** A user cell handed another text is recomputed. *)
Lemma pass_calls_what_the_comparator_rejects_witness :
  let p1 := passOf (Responses := unit) (Synthesis := unit)
              [userEntry (lit "first")] false None in
  let p2 := passOf [userEntry (lit "second")] false None in
  let w1 := exec (render p1) mountWorld in
  let w2 := exec (render p2) w1 in
  bailsOut (Responses := unit) (Synthesis := unit)
    (UserMessageEl (lit "first")) (UserMessageEl (lit "second")) = false
  ∧ (∃ o, cells w2 !! 0%nat = Some (freshCell (UserMessageEl (lit "second")) o)
          ∧ (nextRef w1 ≤ o)%nat)
  ∧ invocationsOf 0 w2 = S (invocationsOf 0 w1).
Proof.
  cbn zeta. split; [reflexivity|].
  exact (pass_calls_what_the_comparator_rejects 0
           (passOf (Responses := unit) (Synthesis := unit)
              [userEntry (lit "first")] false None)
           (passOf [userEntry (lit "second")] false None)
           (UserMessageEl (lit "first")) (UserMessageEl (lit "second"))
           mountWorld eq_refl eq_refl).
Defined.

(** Scenario B: the started turn is rendered by the pass that shows it. *)
Lemma active_cell_is_always_recomputed_witness :
  let p := passOf (Responses := unit) (Synthesis := unit)
             [userEntry (lit "What is 2+2?"); startedEntry] true None in
  let w' := exec (render p) mountWorld in
  assistantAt 1 startedEntry p ∧ activeAt 1 p = true
  ∧ invocationsOf 1 w'
    = S (invocationsOf 1 (mountWorld (Responses := unit) (Synthesis := unit))).
Proof.
  cbn zeta.
  assert (assistantAt 1 startedEntry
            (passOf (Responses := unit) (Synthesis := unit)
               [userEntry (lit "What is 2+2?"); startedEntry] true None)) as Ha.
  { eexists. repeat split; reflexivity. }
  split; [exact Ha|]. split; [reflexivity|].
  exact (proj2 (active_cell_is_always_recomputed 1 startedEntry
                  (passOf [userEntry (lit "What is 2+2?"); startedEntry] true None)
                  mountWorld Ha eq_refl)).
Defined.

(** Two settled conversations shown one after the other: the cell at
    index 1 still shows the assistant message of the first. *)
Lemma settled_cell_is_frozen_witness :
  let first := assistantEntry (Responses := unit) (Synthesis := unit) None
                 (Some [{| ranker := lit "alpha"; order := [lit "A"] |}]) None in
  let second := assistantEntry (Responses := unit) (Synthesis := unit)
                  None None None in
  let w := exec (render (passOf [userEntry (lit "one"); first] false None))
             mountWorld in
  let w' := exec (renders [passOf [userEntry (lit "two"); second] false None]) w in
  first ≠ second
  ∧ (node ∘ output <$> cells w' !! 1%nat)
    = Some (AssistantMessage {| msg := first; isActive := false |})
  ∧ invocationsOf 1 w' = invocationsOf 1 w.
Proof.
  cbn zeta. split; [discriminate|].
  destruct (settled_cell_is_frozen 1
    [passOf (Responses := unit) (Synthesis := unit)
       [userEntry (lit "two"); assistantEntry None None None] false None]
    (exec (render (passOf [userEntry (lit "one");
                           assistantEntry None
                             (Some [{| ranker := lit "alpha";
                                       order := [lit "A"] |}]) None]
                     false None)) mountWorld)
    (freshCell (AssistantMessageEl
                  {| msg := assistantEntry None
                              (Some [{| ranker := lit "alpha";
                                        order := [lit "A"] |}]) None;
                     isActive := false |}) 1)
    {| msg := assistantEntry None
                (Some [{| ranker := lit "alpha"; order := [lit "A"] |}]) None;
       isActive := false |}) as [Hcell Hinv].
  - reflexivity.
  - reflexivity.
  - reflexivity.
  - repeat constructor. eexists. eexists. repeat split; reflexivity.
  - split; [|exact Hinv]. rewrite Hcell. reflexivity.
Defined.

(** A streaming update: the assistant entry has changed, the user entry
    has not. *)
Lemma steady_pass_calls_only_the_active_cell_witness :
  let question := userEntry (Responses := unit) (Synthesis := unit)
                    (lit "What is 2+2?") in
  let later := assistantEntry (Responses := unit) (Synthesis := unit)
                 (Some {| Loading.stage1 := false; Loading.stage2 := true;
                          Loading.stage3 := false |}) None None in
  let p1 := passOf [question; startedEntry] true None in
  let p2 := passOf [question; later] true None in
  let w1 := exec (render p1) mountWorld in
  let w2 := exec (render p2) w1 in
  invocationsOf 0 w2 = (invocationsOf 0 w1 + 0)%nat
  ∧ invocationsOf 1 w2 = (invocationsOf 1 w1 + 1)%nat.
Proof.
  cbn zeta.
  assert (Forall2 sameEntry
            (messagesOf (passOf (Responses := unit) (Synthesis := unit)
               [userEntry (lit "What is 2+2?"); startedEntry] true None))
            (messagesOf (passOf
               [userEntry (lit "What is 2+2?");
                assistantEntry
                  (Some {| Loading.stage1 := false; Loading.stage2 := true;
                           Loading.stage3 := false |}) None None] true None)))
    as Hsame.
  { repeat constructor. }
  split.
  - exact (steady_pass_calls_only_the_active_cell
             (passOf [userEntry (lit "What is 2+2?"); startedEntry] true None)
             (passOf
                [userEntry (lit "What is 2+2?");
                 assistantEntry
                   (Some {| Loading.stage1 := false; Loading.stage2 := true;
                            Loading.stage3 := false |}) None None] true None)
             mountWorld 0 eq_refl Hsame).
  - exact (steady_pass_calls_only_the_active_cell
             (passOf [userEntry (lit "What is 2+2?"); startedEntry] true None)
             (passOf
                [userEntry (lit "What is 2+2?");
                 assistantEntry
                   (Some {| Loading.stage1 := false; Loading.stage2 := true;
                            Loading.stage3 := false |}) None None] true None)
             mountWorld 1 eq_refl Hsame).
Defined.

(** Two keystrokes under a settled conversation. *)
Lemma typing_renders_no_message_witness :
  let p := passOf (Responses := unit) (Synthesis := unit)
             [userEntry (lit "What is 2+2?"); assistantEntry None None None]
             false None in
  let w1 := exec (render p) mountWorld in
  let w2 := exec (run [Change (lit "h"); Pass p; Change (lit "hi"); Pass p]) w1 in
  length (invocations w1) = 2%nat
  ∧ invocations w2 = invocations w1 ∧ cells w2 = cells w1
  ∧ nextRef w2 = nextRef w1.
Proof.
  cbn zeta. split; [reflexivity|].
  exact (typing_renders_no_message
           (passOf (Responses := unit) (Synthesis := unit)
              [userEntry (lit "What is 2+2?"); assistantEntry None None None]
              false None)
           [lit "h"; lit "hi"] mountWorld eq_refl).
Defined.

(** Scenario B: the assistant entry appended by a submit. *)
Lemma new_message_is_mounted_once_witness :
  let p1 := passOf (Responses := unit) (Synthesis := unit)
              [userEntry (lit "What is 2+2?")] false None in
  let p2 := passOf [userEntry (lit "What is 2+2?"); startedEntry] true None in
  let w1 := exec (render p1) mountWorld in
  let w2 := exec (render p2) w1 in
  cells w1 !! 1%nat = None
  ∧ invocationsOf 1 w2 = S (invocationsOf 1 w1).
Proof.
  cbn zeta.
  destruct (new_message_is_mounted_once 1
    (passOf (Responses := unit) (Synthesis := unit)
       [userEntry (lit "What is 2+2?")] false None)
    (passOf [userEntry (lit "What is 2+2?"); startedEntry] true None)
    (AssistantMessageEl {| msg := startedEntry; isActive := true |})
    mountWorld eq_refl eq_refl) as (Hnone & _ & Hinv).
  split; [exact Hnone | exact Hinv].
Defined.

(** A stored message with rankings, an empty final text, no [loading] and
    no [metadata]: the empty text is not rendered. *)
Lemma entry_without_optional_fields_witness :
  let r := {| ranker := lit "alpha"; order := [lit "A"; lit "B"] |} in
  let m := {| role := lit "assistant"; content := [];
              stage1 := @None (list jsstring); stage2 := Some [r];
              stage3 := Some (lit "");
              loading := None; metadata := None |} in
  displayed (assistantChildren m) = [assistantLabel; Stage2El [r] None None]
  ∧ stageChild Third m = []
  ∧ stageData Second m = Some (Stage2El [r] None None).
Proof.
  cbn zeta.
  destruct (entry_without_optional_fields
    {| role := lit "assistant"; content := [];
       stage1 := @None (list jsstring);
       stage2 := Some [{| ranker := lit "alpha"; order := [lit "A"; lit "B"] |}];
       stage3 := Some (lit "");
       loading := None; metadata := None |})
    as (Hloading & _ & _ & Hthird & Hmeta).
  destruct (Hloading eq_refl) as [Hshown _].
  split; [rewrite Hshown; reflexivity|].
  split; [rewrite Hthird; reflexivity | exact (Hmeta eq_refl)].
Defined.

(** The slot holds a text for two passes, is cleared, and holds the same
    text again: two restorations. *)
Lemma restorations_follow_slot_changes_witness :
  let pass := passOf (Responses := unit) (Synthesis := unit)
                [userEntry (lit "Hi")] false in
  let ps := [pass (Some (lit "Hi")); pass (Some (lit "Hi")); pass None;
             pass (Some (lit "Hi"))] in
  restorations None ps = 2%nat
  ∧ restored (exec (renders ps) mountWorld) = 2%nat
  ∧ length (timers (exec (renders ps) mountWorld)) = 2%nat.
Proof.
  cbn zeta. split; [reflexivity|].
  destruct (restorations_follow_slot_changes
    [passOf (Responses := unit) (Synthesis := unit)
       [userEntry (lit "Hi")] false (Some (lit "Hi"));
     passOf [userEntry (lit "Hi")] false (Some (lit "Hi"));
     passOf [userEntry (lit "Hi")] false None;
     passOf [userEntry (lit "Hi")] false (Some (lit "Hi"))] mountWorld)
    as (Hr & Ht & _).
  split; [exact Hr | exact Ht].
Defined.

(** A restoration with no conversation selected is never focused. *)
Lemma timers_focus_mounted_textarea_witness :
  let none := {| conversation := @None (@conversation_t unit unit);
                 isLoading := false; pendingInput := Some (lit "Hi") |} in
  let some := passOf (Responses := unit) (Synthesis := unit)
                [userEntry (lit "Hi")] false (Some (lit "Hi")) in
  focused (exec runTimers (exec (render none) mountWorld)) = 0%nat
  ∧ timers (exec runTimers (exec (render none) mountWorld)) = []
  ∧ focused (exec runTimers (exec (render some) mountWorld)) = 1%nat.
Proof.
  cbn zeta.
  destruct (timers_focus_mounted_textarea
    (exec (render {| conversation := @None (@conversation_t unit unit);
                     isLoading := false; pendingInput := Some (lit "Hi") |})
          mountWorld)) as (Hf & Ht & _).
  destruct (timers_focus_mounted_textarea
    (exec (render (passOf (Responses := unit) (Synthesis := unit)
                     [userEntry (lit "Hi")] false (Some (lit "Hi"))))
          mountWorld)) as (Hf' & _).
  split; [exact Hf|]. split; [exact Ht | exact Hf'].
Defined.

(** A conversation of three messages, then one of a single message. *)
Lemma mounted_cells_are_the_messages_witness :
  let long := passOf (Responses := unit) (Synthesis := unit)
                [userEntry (lit "a"); startedEntry; userEntry (lit "b")]
                false None in
  let short := passOf [userEntry (lit "c")] false None in
  let w := exec (render long) mountWorld in
  let w' := exec (render short) w in
  is_Some (cells w !! 2%nat)
  ∧ cells w' !! 2%nat = None
  ∧ invocationsOf 2 w' = invocationsOf 2 w.
Proof.
  cbn zeta.
  destruct (mounted_cells_are_the_messages
    (passOf (Responses := unit) (Synthesis := unit)
       [userEntry (lit "a"); startedEntry; userEntry (lit "b")] false None)
    mountWorld 2) as (Hlong & _).
  destruct (mounted_cells_are_the_messages
    (passOf (Responses := unit) (Synthesis := unit) [userEntry (lit "c")]
       false None)
    (exec (render (passOf [userEntry (lit "a"); startedEntry;
                           userEntry (lit "b")] false None)) mountWorld) 2)
    as (_ & Hshort).
  split; [apply Hlong; cbn; lia|]. apply Hshort. cbn. lia.
Defined.

(** Scenario B: the tree of a streaming conversation offers the stop
    handler. *)
Lemma tree_wires_handlers_witness :
  let conv := {| messages := [userEntry (Responses := unit) (Synthesis := unit)
                                (lit "What is 2+2?"); startedEntry] |} in
  handlersOf (ChatInterface (Some conv) true (lit ""))
    = [("form", "input-form", "onSubmit", HandleSubmit);
       ("textarea", "message-input", "onChange", HandleChange);
       ("textarea", "message-input", "onKeyDown", HandleKeyDown);
       ("button", "stop-button", "onClick", OnStopGeneration)]%string
  ∧ handlersOf (ChatInterface (Some conv) false (lit ""))
    = [("form", "input-form", "onSubmit", HandleSubmit);
       ("textarea", "message-input", "onChange", HandleChange);
       ("textarea", "message-input", "onKeyDown", HandleKeyDown)]%string
  ∧ handlersOf (ChatInterface (Responses := unit) (Synthesis := unit)
                  None true (lit "")) = [].
Proof.
  cbn zeta.
  split; [|split].
  - exact (proj1 (tree_wires_handlers
             (Some {| messages := [userEntry (Responses := unit)
                                     (Synthesis := unit) (lit "What is 2+2?");
                                   startedEntry] |}) true (lit ""))).
  - exact (proj1 (tree_wires_handlers
             (Some {| messages := [userEntry (Responses := unit)
                                     (Synthesis := unit) (lit "What is 2+2?");
                                   startedEntry] |}) false (lit ""))).
  - exact (proj1 (tree_wires_handlers (Responses := unit) (Synthesis := unit)
                    None true (lit ""))).
Defined.

(** A keystroke does not scroll; the end of the generation does. *)
Lemma scroll_follows_conversation_and_loading_witness :
  let streaming := passOf (Responses := unit) (Synthesis := unit)
                     [userEntry (lit "Hi"); startedEntry] true None in
  let settled := passOf (Responses := unit) (Synthesis := unit)
                   [userEntry (lit "Hi"); startedEntry] false None in
  let s0 := {| lastDeps := None; scrolls := 0 |} in
  let s1 := scrollPass (Some 7%nat) streaming (lit "") s0 in
  let s2 := scrollPass (Some 7%nat) streaming (lit "typed") s1 in
  let s3 := scrollPass (Some 7%nat) settled (lit "typed") s2 in
  scrolls s1 = 1%nat ∧ scrolls s2 = 1%nat ∧ scrolls s3 = 2%nat.
Proof.
  cbn zeta. split; [reflexivity|]. split.
  - exact (scroll_follows_conversation_and_loading (Some 7%nat) (Some 7%nat)
             (passOf (Responses := unit) (Synthesis := unit)
                [userEntry (lit "Hi"); startedEntry] true None)
             (passOf [userEntry (lit "Hi"); startedEntry] true None)
             (lit "") (lit "typed") {| lastDeps := None; scrolls := 0 |}).
  - exact (scroll_follows_conversation_and_loading (Some 7%nat) (Some 7%nat)
             (passOf (Responses := unit) (Synthesis := unit)
                [userEntry (lit "Hi"); startedEntry] true None)
             (passOf [userEntry (lit "Hi"); startedEntry] false None)
             (lit "typed") (lit "typed")
             (scrollPass (Some 7%nat)
                (passOf [userEntry (lit "Hi"); startedEntry] true None)
                (lit "") {| lastDeps := None; scrolls := 0 |})).
Defined.
